(** * Shallow embedding of scikit-activeml's stream delay wrappers, the
      fixed budget manager and the BADGE pool strategy.

    Sources embedded:
    - [skactiveml/stream/budget_manager/_fixed_budget.py]
    - [skactiveml/pool/_badge.py]
    - [skactiveml/stream/verification_latency/_delay_wrapper.py]

    Numbers: Python ints are [Z]. The budget manager computes in IEEE 754
    binary64 ([float64], from the Standard Library's [SpecFloat]), every
    operation rounded to nearest as in the code. In BADGE and in the delay
    wrappers the float arrays are idealised as exact rationals [Q], with an
    explicit [npfloat] where a division can leave the finite numbers; the
    theorems about them state what does not depend on rounding, overflow
    or underflow. *)

From Stdlib Require Import List ZArith QArith Qabs Lia Lqa Bool Arith String.
From Stdlib Require Import Sorting.Sorted QArith.Qminmax.
From Stdlib Require Import Floats.SpecFloat.
Import ListNotations.

Local Open Scope Q_scope.

(** ** Generic numpy-like helpers on lists *)

(** [np.where(mask)[0]]: the positions holding [true], in increasing order,
    counted from [i]. *)
Fixpoint np_where_from (i : nat) (mask : list bool) : list nat :=
  match mask with
  | [] => []
  | b :: rest =>
      if b then i :: np_where_from (S i) rest else np_where_from (S i) rest
  end.

Definition np_where (mask : list bool) : list nat := np_where_from 0 mask.

(** [np.sum] of a boolean array: the number of [true] entries. *)
Definition count_true (mask : list bool) : nat :=
  List.length (filter (fun b => b) mask).


(** ** Python exceptions and values *)

Inductive exn : Type :=
| TypeError
| ValueError
| IndexError
| AttributeError
| UnboundLocalError
| OverflowError.

(** A computation that either raises or returns. *)
Definition result (A : Type) : Type := (exn + A)%type.

Definition bindE {A B : Type} (m : result A) (k : A -> result B) : result B :=
  match m with
  | inl e => inl e
  | inr a => k a
  end.

(** A computation on a mutable object: it returns the object's new state
    together with its result or the exception it raised. *)

Definition M (S A : Type) : Type := S -> S * result A.

Definition ret {S A : Type} (a : A) : M S A := fun s => (s, inr a).

Definition raise {S A : Type} (e : exn) : M S A := fun s => (s, inl e).

Definition bindM {S A B : Type} (m : M S A) (k : A -> M S B) : M S B :=
  fun s =>
    match m s with
    | (s', inl e) => (s', inl e)
    | (s', inr a) => k a s'
    end.

Definition liftR {S A : Type} (r : result A) : M S A := fun s => (s, r).

Declare Scope monad_scope.
Delimit Scope monad_scope with monad.
Notation "x <- m ;; k" := (bindM m (fun x => k))
  (at level 61, m at next level, right associativity) : monad_scope.
Notation "' p <- m ;; k" := (bindM m (fun x => match x with p => k end))
  (at level 61, p pattern, m at next level, right associativity)
  : monad_scope.

(** [xs[i]] with Python's [IndexError] for a position past the end. *)
Definition py_index {A : Type} (xs : list A) (i : nat) : result A :=
  match nth_error xs i with
  | Some x => inr x
  | None => inl IndexError
  end.

(** [xs[[i1, i2, ...]]]: numpy indexing by a list of positions. *)
Fixpoint np_take {A : Type} (xs : list A) (idx : list nat)
  : result (list A) :=
  match idx with
  | [] => inr []
  | i :: rest =>
      bindE (py_index xs i) (fun x =>
      bindE (np_take xs rest) (fun r => inr (x :: r)))
  end.

(** Element-wise binary operation on two 1-D arrays with numpy's
    broadcasting: equal lengths pair up, a length-1 operand is repeated,
    anything else is a [ValueError]. *)
Definition np_broadcast2 {A B C : Type} (f : A -> B -> C)
  (xs : list A) (ys : list B) : result (list C) :=
  if Nat.eqb (List.length xs) (List.length ys)
  then inr (map (fun p => f (fst p) (snd p)) (combine xs ys))
  else match xs, ys with
       | [x], _ => inr (map (f x) ys)
       | _, [y] => inr (map (fun x => f x y) xs)
       | _, _ => inl ValueError
       end.

(** [np.sum] of a float array. *)
Definition np_sum (xs : list Q) : Q := fold_left Qplus xs 0.

(** [np.ones(shape=n)]. *)
Definition np_ones (n : nat) : list Q := repeat 1 n.

(** [arr[i] = v] ([IndexError] past the end). *)
Fixpoint set_at {A : Type} (xs : list A) (i : nat) (v : A) : result (list A) :=
  match xs, i with
  | [], _ => inl IndexError
  | _ :: rest, O => inr (v :: rest)
  | x :: rest, S j => bindE (set_at rest j v) (fun r => inr (x :: r))
  end.

(** [arr[idx] = vs] for a list of positions and as many values. *)
Fixpoint np_put {A : Type} (xs : list A) (idx : list nat) (vs : list A)
  : result (list A) :=
  match idx, vs with
  | i :: idx', v :: vs' =>
      bindE (set_at xs i v) (fun xs' => np_put xs' idx' vs')
  | [], [] => inr xs
  | _, _ => inl ValueError
  end.

(** [arr[idx] = v] for a list of positions and one value. *)
Fixpoint np_fill_at {A : Type} (xs : list A) (idx : list nat) (v : A)
  : result (list A) :=
  match idx with
  | [] => inr xs
  | i :: idx' => bindE (set_at xs i v) (fun xs' => np_fill_at xs' idx' v)
  end.

(** ** IEEE 754 binary64 numbers *)

(** A Python [float] or numpy [float64]: precision 53, largest exponent
    1024. Every operation rounds to nearest, ties to even. *)
Definition float64 : Type := spec_float.

Definition f64_mul : float64 -> float64 -> float64 := SFmul 53 1024.
Definition f64_sub : float64 -> float64 -> float64 := SFsub 53 1024.
Definition f64_div : float64 -> float64 -> float64 := SFdiv 53 1024.

(** [x <= y]; false as soon as one side is nan. *)
Definition f64_leb : float64 -> float64 -> bool := SFleb.

(** The float nearest to an integer (an infinity beyond the largest
    float). *)
Definition f64_of_Z (n : Z) : float64 := binary_normalize 53 1024 n 0 false.

Definition f64_one : float64 := f64_of_Z 1.

(** The float a decimal literal such as [0.3] denotes, for a fraction
    whose numerator and denominator are below [2^53]: the correctly
    rounded quotient. *)
Definition f64_of_Q (q : Q) : float64 :=
  f64_div (f64_of_Z (Qnum q)) (f64_of_Z (Zpos (Qden q))).

(** The exact value of a finite float. *)
Definition f64_to_Q (x : float64) : option Q :=
  match x with
  | S754_zero _ => Some 0
  | S754_finite s m e =>
      Some (inject_Z (if s then Zneg m else Zpos m) * Qpower 2 e)
  | _ => None
  end.

(** The conversion of a Python [int] in mixed arithmetic with a [float]:
    the nearest float, and [OverflowError] ("int too large to convert to
    float") for an int that rounds beyond the largest float, that is, from
    [2^1024 - 2^970] on. *)
Definition py_float (n : Z) : result float64 :=
  if (Z.abs n <? 2 ^ 1024 - 2 ^ 970)%Z then inr (f64_of_Z n)
  else inl OverflowError.

(** numpy's [int64]: the range and the wrap-around of its addition. *)
Definition in_int64 (n : Z) : bool := ((- 2 ^ 63 <=? n) && (n <? 2 ^ 63))%Z.

Definition wrap_int64 (n : Z) : Z := ((n + 2 ^ 63) mod 2 ^ 64 - 2 ^ 63)%Z.

(** [n + flag] for an integer [n] and a numpy bool [flag]: the sum is a
    numpy [int64], whose addition wraps around; a Python int outside the
    [int64] range cannot be converted ([OverflowError]). *)
Definition np_add_bool (n : Z) (flag : bool) : result Z :=
  if in_int64 n then inr (wrap_int64 (n + (if flag then 1 else 0)))
  else inl OverflowError.

(** ** FixedBudget ([_fixed_budget.py]) *)

Module FixedBudget.

Record state := mk {
  budget : float64;
  observed_instances : Z;
  sampled_instances : Z
}.

(** [__init__]: both counters start at zero. *)
Definition init (b : float64) : state := mk b 0%Z 0%Z.

(** [is_budget_left]: [observed * budget - sampled >= 1], computed in
    floats; both counters are converted on the way. *)
Definition is_budget_left (st : state) : result bool :=
  bindE (py_float (observed_instances st)) (fun observed =>
  bindE (py_float (sampled_instances st)) (fun sampled =>
  let available_budget := f64_sub (f64_mul observed (budget st)) sampled in
  inr (f64_leb f64_one available_budget))).

(** One iteration of the [for i, utility in enumerate(utilities)] loop:
    [budget_left[i]] and [sampled[i]]. An exception leaves the counters as
    they are at that point. *)
Definition step (utility : float64) : M state (bool * bool) :=
  fun st =>
    let st1 := mk (budget st) (observed_instances st + 1)
                  (sampled_instances st) in
    match is_budget_left st1 with
    | inl e => (st1, inl e)
    | inr bl =>
        let s := bl && f64_leb (f64_sub f64_one (budget st1)) utility in
        match np_add_bool (sampled_instances st1) s with
        | inl e => (st1, inl e)
        | inr n =>
            (mk (budget st1) (observed_instances st1) n, inr (bl, s))
        end
    end.

(** The whole loop: threads the counters, fills the two boolean arrays. *)
Fixpoint loop (utilities : list float64) : M state (list bool * list bool) :=
  match utilities with
  | [] => ret ([], [])
  | u :: rest =>
      bindM (step u) (fun '(bl, s) =>
      bindM (loop rest) (fun '(bls, ss) =>
      ret (bl :: bls, s :: ss)))
  end.

(** [sample(utilities, simulate, return_budget_left=True)]: the sampled
    indices and the [budget_left] array. The counters are reset after the
    loop when [simulate] is set. *)
Definition sample_full (utilities : list float64) (simulate : bool)
  : M state (list nat * list bool) :=
  fun st =>
    let init_observed_instances := observed_instances st in
    let init_sampled_instances := sampled_instances st in
    match loop utilities st with
    | (st1, inl e) => (st1, inl e)
    | (st1, inr (budget_left, sampled)) =>
        let st2 :=
          if simulate
          then mk (budget st1) init_observed_instances
                  init_sampled_instances
          else st1 in
        (st2, inr (np_where sampled, budget_left))
    end.

(** [sample(utilities, simulate)] with the default
    [return_budget_left=False]. *)
Definition sample (utilities : list float64) (simulate : bool)
  : M state (list nat) :=
  bindM (sample_full utilities simulate) (fun '(idx, _) => ret idx).

End FixedBudget.

(** Number of entries of [idx] that are strictly below [i]: how many
    instances a call has sampled before it reaches position [i]. *)
Definition count_before (i : nat) (idx : list nat) : Z :=
  Z.of_nat (List.length (filter (fun j => Nat.ltb j i) idx)).

(** The test one loop iteration of [FixedBudget.sample] applies, written
    over the values the two counters have after [observed_instances] was
    advanced: [observed * b - sampled >= 1] and [u >= 1 - b], each
    operation in floats. *)
Definition budget_test (b : float64) (observed sampled : Z) : bool :=
  f64_leb f64_one (f64_sub (f64_mul (f64_of_Z observed) b)
                           (f64_of_Z sampled)).

Definition sample_test (b : float64) (observed sampled : Z) (u : float64)
  : bool :=
  budget_test b observed sampled && f64_leb (f64_sub f64_one b) u.

(** The counters of a state stay within numpy's [int64] while [n] further
    instances are counted. *)
Definition counters_in_int64 (st : FixedBudget.state) (n : nat) : Prop :=
  (- 2 ^ 63 <= FixedBudget.observed_instances st /\
   FixedBudget.observed_instances st + Z.of_nat n < 2 ^ 63 /\
   - 2 ^ 63 <= FixedBudget.sampled_instances st /\
   FixedBudget.sampled_instances st + Z.of_nat n < 2 ^ 63)%Z.

(** ** BADGE ([_badge.py]) *)

Module Badge.

Section WithCollaborators.

(** The metric of sklearn's [pairwise_distances_argmin_min] between two
    rows of the embedding matrix (Euclidean by default). The function lives
    outside the repository and is taken as a parameter. *)
Variable dist : list Q -> list Q -> Q.

(** The random generator [self.random_state_]: its state, the uniform
    [choice(n)] and the categorical draw
    [rv_discrete(values=(arange(len(p)), p)).rvs(size=1)[0]]. *)
Variable R : Type.
Variable choice : nat -> R -> R * nat.
Variable rvs : list Q -> R -> R * nat.

(** [pairwise_distances_argmin_min(X=g_x, Y=g_query)[1]] for one row [x]:
    the distance to the nearest row of [Y]; an empty [Y] is rejected by
    sklearn. *)
Definition min_distance (Y : list (list Q)) (x : list Q) : result Q :=
  match Y with
  | [] => inl ValueError
  | y0 :: ys => inr (fold_left (fun m y => Qmin m (dist x y)) ys (dist x y0))
  end.

Fixpoint pairwise_min (g_x Y : list (list Q)) : result (list Q) :=
  match g_x with
  | [] => inr []
  | x :: rest =>
      bindE (min_distance Y x) (fun d =>
      bindE (pairwise_min rest Y) (fun ds => inr (d :: ds)))
  end.

(** [_d_probability(g_x, query_indicies, d_latest)]: the vector and the
    [is_randomized] flag. The squares, their sum and the quotients are
    exact here, where a float square can underflow to zero or overflow;
    nothing stated about this function below depends on the
    difference. *)
Definition _d_probability (g_x : list (list Q)) (query_indicies : list nat)
  (d_latest : option (list Q)) : result (list Q * bool) :=
  if Nat.eqb (List.length query_indicies) 0
  then inr (np_ones (List.length g_x), true)
  else
    bindE (np_take g_x query_indicies) (fun g_query_indicies =>
    bindE (pairwise_min g_x g_query_indicies) (fun D0 =>
    bindE (match d_latest with
           | Some dl => np_broadcast2 Qmin dl D0
           | None => inr D0
           end) (fun D =>
    let D2 := map (fun d => d * d) D in
    let D2_sum := np_sum D2 in
    if Qeq_bool D2_sum 0
    then inr (np_ones (List.length g_x), true)
    else inr (map (fun d => d / D2_sum) D2, false)))).

(** [p_max = np.max(probas, axis=1)], one entry per row. *)
Definition row_max (row : list Q) : result Q :=
  match row with
  | [] => inl ValueError
  | p :: ps => inr (fold_left Qmax ps p)
  end.

Fixpoint row_maxes (probas : list (list Q)) : result (list Q) :=
  match probas with
  | [] => inr []
  | row :: probas' =>
      bindE (row_max row) (fun p =>
      bindE (row_maxes probas') (fun ps => inr (p :: ps)))
  end.

(** [g_x = (p_max - 1) * X_emb] for the column [p_max.reshape(-1, 1)]:
    each embedding row is scaled by the [p_max - 1] of its own row; numpy
    broadcasts along the rows when one of the two has a single row. *)
Definition gradient_embedding (probas X_emb : list (list Q))
  : result (list (list Q)) :=
  bindE (row_maxes probas) (fun p_max =>
  np_broadcast2 (fun p x => map (fun v => (p - 1) * v) x) p_max X_emb).

(** The variables the batch loop carries from one round to the next. A
    utility of [None] is [np.nan]. *)
Record loop_state := mk_loop {
  random_state_ : R;
  query_indicies : list nat;
  D_p : list (list Q);
  idx_in_unlbld : nat;
  utilities : list (list (option Q))
}.

(** Round [i] of [for i in range(batch_size)]. [n_samples] is the width of
    the utilities matrix. *)
Definition round (g_x : list (list Q)) (unlbld_mapping : list nat)
  (n_samples : nat) (i : nat) (st : loop_state) : result loop_state :=
  bindE (if Nat.eqb i 0
         then _d_probability g_x [] None
         else bindE (py_index (D_p st) (i - 1)) (fun d_latest =>
              _d_probability g_x [idx_in_unlbld st] (Some d_latest)))
    (fun '(d_probas, is_randomized) =>
  let D_p' := D_p st ++ [d_probas] in
  bindE (np_put (repeat None n_samples) unlbld_mapping (map Some d_probas))
    (fun row0 =>
  bindE (np_fill_at row0 (query_indicies st) None) (fun row =>
  let '(rs, idx_in) :=
    if is_randomized
    then choice (List.length g_x) (random_state_ st)
    else rvs d_probas (random_state_ st) in
  bindE (py_index unlbld_mapping idx_in) (fun idx =>
  inr (mk_loop rs (query_indicies st ++ [idx]) D_p' idx_in
               (utilities st ++ [row])))))).

Fixpoint rounds (g_x : list (list Q)) (unlbld_mapping : list nat)
  (n_samples : nat) (todo : nat) (i : nat) (st : loop_state)
  : result loop_state :=
  match todo with
  | O => inr st
  | S todo' =>
      bindE (round g_x unlbld_mapping n_samples i st)
            (rounds g_x unlbld_mapping n_samples todo' (S i))
  end.

(** [Badge.query] from the gradient embedding on (lines 146-192), with
    [return_utilities=True]. The fitted classifier is outside the
    repository: its [predict_proba] output [probas] and the embedding
    features [X_emb] of the unlabeled rows are inputs, as are the mapping of
    unlabeled rows to sample indices and the number of samples. *)
Definition query (probas X_emb : list (list Q)) (unlbld_mapping : list nat)
  (n_samples batch_size : nat) (rs : R)
  : result (R * (list nat * list (list (option Q)))) :=
  bindE (gradient_embedding probas X_emb) (fun g_x =>
  bindE (rounds g_x unlbld_mapping n_samples batch_size 0
                (mk_loop rs [] [] 0%nat []))
    (fun st => inr (random_state_ st, (query_indicies st, utilities st)))).

End WithCollaborators.

(** The selection probabilities the documentation of [_d_probability]
    describes: squared distance of every row to its nearest row among all
    [selected] ones, normalised to sum to one. *)
Definition direct_probability (dist : list Q -> list Q -> Q)
  (g_x : list (list Q)) (selected : list nat) : result (list Q) :=
  bindE (np_take g_x selected) (fun centers =>
  bindE (pairwise_min dist g_x centers) (fun D =>
  let D2 := map (fun d => d * d) D in
  inr (map (fun d => d / np_sum D2) D2))).

(** A generator whose outcomes are scripted in advance: each draw pops the
    next outcome. Used to replay one particular run of the random
    generator. *)
Definition scripted {A : Type} (_ : A) (r : list nat) : list nat * nat :=
  match r with
  | [] => ([], 0%nat)
  | d :: r' => (r', d)
  end.

(** The Euclidean distance between two rows that hold a single feature:
    [sqrt((a - b)^2) = |a - b|]. *)
Definition euclidean_1d (x y : list Q) : Q :=
  Qabs (nth 0 x 0 - nth 0 y 0).

End Badge.

(** ** Values shared by the delay wrappers ([_delay_wrapper.py]) *)

(** A numpy float that may have left the finite numbers. *)
Inductive npfloat : Type :=
| Fin (q : Q)
| PosInf
| NegInf
| NaN.

(** numpy's float division: [0/0] is nan, [x/0] is a signed infinity. *)
Definition np_div (a b : Q) : npfloat :=
  if Qeq_bool b 0
  then (if Qeq_bool a 0 then NaN
        else if Qle_bool 0 a then PosInf else NegInf)
  else Fin (a / b).

(** A constructor argument as Python sees it. *)
Inductive pyval : Type :=
| PyNone
| PyBool (b : bool)
| PyInt (z : Z)
| PyFloat (q : Q)
| PyStr (s : string).

(** [isinstance(v, int)]; [bool] is a subclass of [int]. *)
Definition isinstance_int (v : pyval) : bool :=
  match v with
  | PyBool _ | PyInt _ => true
  | _ => false
  end.

(** [isinstance(v, float)]. *)
Definition isinstance_float (v : pyval) : bool :=
  match v with
  | PyFloat _ => true
  | _ => false
  end.

(** The number a Python value stands for in arithmetic and comparisons;
    [None] for values arithmetic rejects with a [TypeError]. *)
Definition py_number (v : pyval) : option Q :=
  match v with
  | PyBool b => Some (if b then 1 else 0)
  | PyInt z => Some (inject_Z z)
  | PyFloat q => Some q
  | PyNone | PyStr _ => None
  end.

(** [np.zeros(v)] followed by [range(v)]: the length a Python value stands
    for. numpy takes an [int] only (a [bool] is a [TypeError]) and rejects
    a negative length. *)
Definition py_count (v : pyval) : result nat :=
  match v with
  | PyInt z => if (z <? 0)%Z then inl ValueError else inr (Z.to_nat z)
  | _ => inl TypeError
  end.

(** *** Array-likes as the validators see them *)

Inductive dtype : Type := DBool | DInt | DFloat | DStr.

(** What the validators look at in [np.array(x)]: element type, shape, and
    whether every entry is finite. *)
Record array_like := mk_array {
  al_dtype : dtype;
  al_shape : list nat;
  al_finite : bool
}.

Definition is_numeric (d : dtype) : bool :=
  match d with
  | DStr => false
  | _ => true
  end.

Definition ndim (a : array_like) : nat := List.length (al_shape a).

(** sklearn's [_num_samples]: the first dimension; a 0-d array is a
    [TypeError]. *)
Definition _num_samples (a : array_like) : result nat :=
  match al_shape a with
  | [] => inl TypeError
  | n :: _ => inr n
  end.

(** [sklearn.utils.check_array(a, ensure_2d=...)] with the defaults the
    wrappers rely on: numeric dtype, at most two dimensions, finite
    entries, at least one sample and (for 2-D input) one feature. Returns
    the exception it raises, if any. *)
Definition check_array (ensure_2d : bool) (a : array_like) : result unit :=
  if negb (is_numeric (al_dtype a)) then inl ValueError
  else if ensure_2d && negb (Nat.eqb (ndim a) 2) then inl ValueError
  else if Nat.ltb 2 (ndim a) then inl ValueError
  else if negb (al_finite a) then inl ValueError
  else
    bindE (_num_samples a) (fun n =>
    if Nat.ltb n 1 then inl ValueError
    else match al_shape a with
         | [_; m] => if Nat.ltb m 1 then inl ValueError else inr tt
         | _ => inr tt
         end).

(** [sklearn.utils.check_consistent_length(a, b)]. *)
Definition check_consistent_length (a b : array_like) : result unit :=
  bindE (_num_samples a) (fun n =>
  bindE (_num_samples b) (fun m =>
  if Nat.eqb n m then inr tt else inl ValueError)).

(** [_validate_X_y_sample_weight] (lines 141-170). *)
Definition _validate_X_y_sample_weight (X y : array_like)
  (sample_weight : option array_like) : result unit :=
  bindE (match sample_weight with
         | Some sw => check_consistent_length sw y
         | None => inr tt
         end) (fun _ =>
  bindE (check_array true X) (fun _ =>
  check_consistent_length X y)).

(** [_validate_acquisitions] (lines 172-193). *)
Definition _validate_acquisitions (acquisitions : array_like) : result unit :=
  match al_dtype acquisitions with
  | DBool => inr tt
  | _ => inl TypeError
  end.

(** [_validate_tX_ty] (lines 195-215). *)
Definition _validate_tX_ty (tX ty : array_like) : result unit :=
  bindE (check_array false tX) (fun _ =>
  bindE (check_array false ty) (fun _ =>
  check_consistent_length tX ty)).

(** [_validate_tX_cand_ty_cand] (lines 217-237). *)
Definition _validate_tX_cand_ty_cand (tX_cand ty_cand : array_like)
  : result unit :=
  bindE (check_array false tX_cand) (fun _ =>
  bindE (check_array false ty_cand) (fun _ =>
  check_consistent_length tX_cand ty_cand)).

(** The raw arrays of one [query] call, before validation. *)
Record raw_inputs := mk_raw {
  raw_X_cand : array_like;
  raw_X : array_like;
  raw_y : array_like;
  raw_tX : array_like;
  raw_ty : array_like;
  raw_tX_cand : array_like;
  raw_ty_cand : array_like;
  raw_acquisitions : array_like;
  raw_sample_weight : option array_like
}.

(** The four array validators in the order
    [SingleAnnotStreamBasedQueryStrategyDelayWrapper._validate_data] runs
    them (lines 295-300). *)
Definition validate_arrays (r : raw_inputs) : result unit :=
  bindE (_validate_X_y_sample_weight (raw_X r) (raw_y r)
                                     (raw_sample_weight r)) (fun _ =>
  bindE (_validate_acquisitions (raw_acquisitions r)) (fun _ =>
  bindE (_validate_tX_ty (raw_tX r) (raw_ty r)) (fun _ =>
  _validate_tX_cand_ty_cand (raw_tX_cand r) (raw_ty_cand r)))).

(** The conditions the four validators do enforce, as a decidable
    predicate. *)
Definition time_array_ok (a : array_like) : bool :=
  is_numeric (al_dtype a) && al_finite a &&
  match al_shape a with
  | [n] => Nat.leb 1 n
  | [n; m] => Nat.leb 1 n && Nat.leb 1 m
  | _ => false
  end.

Definition same_length (a b : array_like) : bool :=
  match al_shape a, al_shape b with
  | n :: _, m :: _ => Nat.eqb n m
  | _, _ => false
  end.

Definition arrays_ok (r : raw_inputs) : bool :=
  match raw_sample_weight r with
  | Some sw => same_length sw (raw_y r)
  | None => true
  end &&
  (is_numeric (al_dtype (raw_X r)) && al_finite (raw_X r) &&
   match al_shape (raw_X r) with
   | [n; m] => Nat.leb 1 n && Nat.leb 1 m
   | _ => false
   end) &&
  same_length (raw_X r) (raw_y r) &&
  match al_dtype (raw_acquisitions r) with DBool => true | _ => false end &&
  time_array_ok (raw_tX r) && time_array_ok (raw_ty r) &&
  same_length (raw_tX r) (raw_ty r) &&
  time_array_ok (raw_tX_cand r) && time_array_ok (raw_ty_cand r) &&
  same_length (raw_tX_cand r) (raw_ty_cand r).

(** The conditions as the specification words them: every arrival-time
    array numeric, 1-D and as long as its paired feature matrix,
    [acquisitions] boolean, [sample_weight] (when given) as long as [y]. *)
Definition spec_time_array_ok (a paired : array_like) : bool :=
  is_numeric (al_dtype a) &&
  match al_shape a, al_shape paired with
  | [n], m :: _ => Nat.eqb n m
  | _, _ => false
  end.

Definition spec_arrays_ok (r : raw_inputs) : bool :=
  spec_time_array_ok (raw_tX r) (raw_X r) &&
  spec_time_array_ok (raw_ty r) (raw_X r) &&
  spec_time_array_ok (raw_tX_cand r) (raw_X_cand r) &&
  spec_time_array_ok (raw_ty_cand r) (raw_X_cand r) &&
  match al_dtype (raw_acquisitions r) with DBool => true | _ => false end &&
  match raw_sample_weight r with
  | Some sw => same_length sw (raw_y r)
  | None => true
  end.

(** ** More numpy helpers used by the wrappers *)

(** [arr[mask]] for a boolean mask: numpy requires the mask to be as long
    as the array ([IndexError] otherwise). *)
Fixpoint np_mask_select {A : Type} (mask : list bool) (xs : list A)
  : result (list A) :=
  match mask, xs with
  | [], [] => inr []
  | m :: mask', x :: xs' =>
      bindE (np_mask_select mask' xs') (fun r =>
      inr (if m then x :: r else r))
  | _, _ => inl IndexError
  end.

(** [arr[mask] = v] for a scalar [v]. *)
Fixpoint np_mask_fill {A : Type} (mask : list bool) (v : A) (xs : list A)
  : result (list A) :=
  match mask, xs with
  | [], [] => inr []
  | m :: mask', x :: xs' =>
      bindE (np_mask_fill mask' v xs') (fun r =>
      inr ((if m then v else x) :: r))
  | _, _ => inl IndexError
  end.

(** [arr[mask] = vals] for an array [vals] with one value per selected
    position ([ValueError] when the counts differ). *)
Fixpoint np_mask_assign_each {A : Type} (mask : list bool) (vals : list A)
  (xs : list A) : result (list A) :=
  match mask, xs with
  | [], [] => match vals with [] => inr [] | _ => inl ValueError end
  | m :: mask', x :: xs' =>
      if m
      then match vals with
           | v :: vals' =>
               bindE (np_mask_assign_each mask' vals' xs') (fun r =>
               inr (v :: r))
           | [] => inl ValueError
           end
      else bindE (np_mask_assign_each mask' vals xs') (fun r => inr (x :: r))
  | _, _ => inl IndexError
  end.

(** [arr[mask] = vals]; a length-1 [vals] is broadcast. *)
Definition np_mask_assign {A : Type} (mask : list bool) (vals : list A)
  (xs : list A) : result (list A) :=
  match vals with
  | [v] => np_mask_fill mask v xs
  | _ => np_mask_assign_each mask vals xs
  end.

(** [np.max] of a flat array; empty input is a [ValueError]. *)
Definition np_max (xs : list Q) : result Q :=
  match xs with
  | [] => inl ValueError
  | x :: rest => inr (fold_left Qmax rest x)
  end.

(** [np.max([a, b])] for two 1-D arrays: the two must stack into one 2-D
    array, the result is the largest entry of both. *)
Definition np_max2 (a b : list Q) : result Q :=
  if Nat.eqb (List.length a) (List.length b)
  then np_max (a ++ b)
  else inl ValueError.

(** [np.argmax] of one row: the first position of the largest entry. *)
Fixpoint argmax_from (best_i : nat) (best : nat) (i : nat) (xs : list nat)
  : nat :=
  match xs with
  | [] => best_i
  | x :: rest =>
      if Nat.ltb best x then argmax_from i x (S i) rest
      else argmax_from best_i best (S i) rest
  end.

Definition np_argmax (xs : list nat) : result nat :=
  match xs with
  | [] => inl ValueError
  | x :: rest => inr (argmax_from 0 x 1 rest)
  end.

(** [np.argmax(rows, axis=1)]. *)
Fixpoint np_argmax_rows (rows : list (list nat)) : result (list nat) :=
  match rows with
  | [] => inr []
  | r :: rest =>
      bindE (np_argmax r) (fun a =>
      bindE (np_argmax_rows rest) (fun l => inr (a :: l)))
  end.

Definition np_argmax_axis1 (rows : list (list nat)) : result (list nat) :=
  match rows with
  | [] => inl ValueError
  | _ => np_argmax_rows rows
  end.

(** ** Data and collaborators of the delay wrappers *)

(** A label; [None] is the missing label. *)
Definition label : Type := option nat.

(** The validated arrays of one [query] call. [check_array] keeps the
    element type of a numeric array; [ty_dtype] is the element type of
    [ty], the one array the wrappers write into. *)
Record inputs := mk_inputs {
  X_cand : list (list Q);
  X : list (list Q);
  y : list label;
  tX : list Q;
  ty : list Q;
  tX_cand : list Q;
  ty_cand : list Q;
  acquisitions : list bool;
  sample_weight : option (list npfloat);
  ty_dtype : dtype
}.

(** The value [arr[...] = v] leaves in an array of element type [d]: numpy
    converts the float [v] to the element type, cutting off the fraction
    (towards zero) for an integer array. *)
Definition np_store (d : dtype) (v : Q) : Q :=
  match d with
  | DInt => inject_Z (Z.quot (Qnum v) (Zpos (Qden v)))
  | DBool => if Qeq_bool v 0 then 0 else 1
  | _ => v
  end.

Definition describe_matrix (m : list (list Q)) : array_like :=
  mk_array DFloat [List.length m; List.length (hd [] m)] true.

Definition describe_vector {A : Type} (d : dtype) (v : list A) : array_like :=
  mk_array d [List.length v] true.

(** The typed arrays as the validators see them. *)
Definition describe (inp : inputs) : raw_inputs :=
  mk_raw (describe_matrix (X_cand inp))
         (describe_matrix (X inp))
         (describe_vector DFloat (y inp))
         (describe_vector DFloat (tX inp))
         (describe_vector (ty_dtype inp) (ty inp))
         (describe_vector DFloat (tX_cand inp))
         (describe_vector DFloat (ty_cand inp))
         (describe_vector DBool (acquisitions inp))
         (option_map (describe_vector DFloat) (sample_weight inp)).

(** The keyword arguments a wrapper hands to
    [base_query_strategy_.query]. [a_aquisitions] is the misspelt keyword
    the fuzzy wrapper uses, which reaches the base strategy through
    [**kwargs]. *)
Record base_args := mk_args {
  a_X_cand : list (list Q);
  a_X : list (list Q);
  a_y : list label;
  a_tX : list Q;
  a_ty : list Q;
  a_tX_cand : Q;
  a_ty_cand : Q;
  a_sample_weight : option (list npfloat);
  a_acquisitions : option (list bool);
  a_aquisitions : option (list bool)
}.

(** The wrapped stream query strategy together with its budget manager.
    [B] is its whole mutable state. [clone] is sklearn's [clone]: a new
    object with the same parameters and nothing of what the original has
    learnt or counted, and a [TypeError] for an object that is no
    estimator. [base_query args simulate] returns the sampled indices and
    the utilities; [base_update X_cand sampled utilities] is
    [update(X_cand, sampled, budget_manager_kwargs=dict(utilities=...))]. *)
Class BaseStrategy (B : Type) := {
  Split : B;
  clone : B -> result B;
  is_stream_strategy : B -> bool;
  base_query : base_args -> bool -> B -> B * (list nat * list Q);
  base_update : list (list Q) -> list bool -> option (list Q) -> B -> B;
  budget_manager_sample : list Q -> bool -> B -> B * list nat
}.

(** What a classifier was last fitted on. *)
Record train := mk_train {
  t_X : list (list Q);
  t_y : list label;
  t_sample_weight : option (list npfloat)
}.

(** The classifier collaborator: [C] is an estimator with its parameters,
    [predict_freq] the class frequencies a fitted estimator predicts. *)
Class Classifier (C : Type) := {
  is_classifier : C -> bool;
  PWC : Z -> C;
  predict_freq : C -> train -> list (list Q) -> list (list Q)
}.

(** The fitted attribute [clf_]: the estimator and the data of its last
    [fit]. *)
Record clf_state (C : Type) := mk_clf {
  estimator : C;
  fitted_on : option train
}.
Arguments mk_clf {C} _ _.
Arguments estimator {C} _.
Arguments fitted_on {C} _.

(** The random generator [random_state_]. *)
Class RandomState (R : Type) := {
  randint : Z -> R -> R * Z;
  multinomial : nat -> list npfloat -> R -> R * list nat
}.

(** The persisted attributes of a wrapper instance. [None] is an attribute
    not yet set. *)
Record wstate (B C R : Type) := mk_wstate {
  base_query_strategy_ : option B;
  clf_ : option (clf_state C);
  random_state_ : R
}.
Arguments mk_wstate {B C R} _ _ _.
Arguments base_query_strategy_ {B C R} _.
Arguments clf_ {B C R} _.
Arguments random_state_ {B C R} _.

(** The constructor arguments of the three wrappers. *)
Record config (B C : Type) := mk_config {
  base_query_strategy : option B;
  w_train : pyval;
  K : pyval;
  delay_prior : pyval;
  clf : option C
}.
Arguments mk_config {B C} _ _ _ _ _.
Arguments base_query_strategy {B C} _.
Arguments w_train {B C} _.
Arguments K {B C} _.
Arguments delay_prior {B C} _.
Arguments clf {B C} _.

(** ** The delay wrappers *)

Section DelayWrappers.

Local Open Scope monad_scope.

Context {B C R : Type}.
Context {base_strategy : BaseStrategy B} {classifier : Classifier C}
  {random_state : RandomState R}.

(** [_validate_data] of the parent class
    [SingleAnnotStreamBasedQueryStrategyWrapper] (not part of the sources):
    it checks the candidate matrix and the two flags, and is taken as a
    parameter. *)
Variable super_validate_data : array_like -> result unit.

Definition W : Type -> Type := M (wstate B C R).

Definition set_base (b : option B) (st : wstate B C R) : wstate B C R :=
  mk_wstate b (clf_ st) (random_state_ st).

Definition set_clf (c : option (clf_state C)) (st : wstate B C R)
  : wstate B C R :=
  mk_wstate (base_query_strategy_ st) c (random_state_ st).

Definition set_random_state (r : R) (st : wstate B C R) : wstate B C R :=
  mk_wstate (base_query_strategy_ st) (clf_ st) r.

(** A method call on [self.base_query_strategy_]. *)
Definition with_base {A : Type} (f : B -> B * A) : W A :=
  fun st =>
    match base_query_strategy_ st with
    | None => (st, inl AttributeError)
    | Some b => let '(b', a) := f b in (set_base (Some b') st, inr a)
    end.

(** A method call on [self.random_state_]. *)
Definition with_random_state {A : Type} (f : R -> R * A) : W A :=
  fun st =>
    let '(r', a) := f (random_state_ st) in (set_random_state r' st, inr a).

(** *** The shared base class *)

(** [_validate_base_query_strategy] (lines 116-139). *)
Definition _validate_base_query_strategy (cfg : config B C) : W unit :=
  _ <- (fun st =>
          match base_query_strategy_ st with
          | Some _ => (st, inr tt)
          | None =>
              match base_query_strategy cfg with
              | None => (set_base (Some Split) st, inr tt)
              | Some b =>
                  match clone b with
                  | inl e => (st, inl e)
                  | inr b' => (set_base (Some b') st, inr tt)
                  end
              end
          end) ;;
  fun st =>
    match base_query_strategy_ st with
    | Some b =>
        if is_stream_strategy b then (st, inr tt) else (st, inl TypeError)
    | None => (st, inl AttributeError)
    end.

(** [SingleAnnotStreamBasedQueryStrategyDelayWrapper._validate_data]
    (lines 287-300). *)
Definition base_validate_data (cfg : config B C) (inp : inputs) : W unit :=
  _ <- _validate_base_query_strategy cfg ;;
  _ <- liftR (super_validate_data (raw_X_cand (describe inp))) ;;
  liftR (validate_arrays (describe inp)).

(** [update] of all three wrappers (lines 496-498, 920-922,
    1396-1398). *)
Definition update (cfg : config B C) (X_cand0 : list (list Q))
  (sampled : list bool) (budget_manager_kwargs : option (list Q)) : W unit :=
  _ <- _validate_base_query_strategy cfg ;;
  with_base (fun b =>
    (base_update X_cand0 sampled budget_manager_kwargs b, tt)).

(** *** ForgettingWrapper *)

(** [_validate_w_train] (lines 625-642). *)
Definition _validate_w_train (cfg : config B C) : result unit :=
  match w_train cfg with
  | PyNone => inr tt
  | v =>
      if negb (isinstance_float v || isinstance_int v) then inl TypeError
      else match py_number v with
           | Some w => if negb (Qle_bool 0 w) then inl ValueError else inr tt
           | None => inl TypeError
           end
  end.

(** [ForgettingWrapper._validate_data] (lines 581-609). *)
Definition forgetting_validate_data (cfg : config B C) (inp : inputs)
  : W unit :=
  _ <- base_validate_data cfg inp ;;
  liftR (_validate_w_train cfg).

(** The mask [tX >= ty_cand_current - w_train] (line 442). *)
Definition forgetting_mask (cfg : config B C) (inp : inputs)
  (ty_cand_current : Q) : result (list bool) :=
  match py_number (w_train cfg) with
  | None => inl TypeError
  | Some w => inr (map (fun t => Qle_bool (ty_cand_current - w) t) (tX inp))
  end.

(** The arguments of the base query for one candidate (lines 442-465). *)
Definition forgetting_view (cfg : config B C) (inp : inputs)
  (tX_cand_current ty_cand_current : Q) (X_cand_current : list Q)
  : result base_args :=
  bindE (forgetting_mask cfg inp ty_cand_current) (fun tX_in_A_n =>
  bindE (np_mask_select tX_in_A_n (X inp)) (fun A_n_X =>
  bindE (np_mask_select tX_in_A_n (tX inp)) (fun A_n_tX =>
  bindE (np_mask_select tX_in_A_n (y inp)) (fun A_n_y =>
  bindE (np_mask_select tX_in_A_n (ty inp)) (fun A_n_ty =>
  bindE (np_mask_select tX_in_A_n (acquisitions inp))
    (fun A_n_acquisitions =>
  bindE (match sample_weight inp with
         | None => inr None
         | Some sw =>
             bindE (np_mask_select tX_in_A_n sw) (fun w => inr (Some w))
         end) (fun A_n_sample_weight =>
  inr (mk_args [X_cand_current] A_n_X A_n_y A_n_tX A_n_ty
               tX_cand_current ty_cand_current
               A_n_sample_weight (Some A_n_acquisitions) None)))))))).

(** The loop over [enumerate(zip(tX_cand, ty_cand, X_cand))]
    (lines 439-468). *)
Fixpoint forgetting_loop (cfg : config B C) (inp : inputs) (simulate : bool)
  (i : nat) (cands : list (Q * Q * list Q))
  (sampled_indices : list nat) (utilities : list (list Q))
  : W (list nat * list (list Q)) :=
  match cands with
  | [] => ret (sampled_indices, utilities)
  | (tX_cand_current, ty_cand_current, X_cand_current) :: rest =>
      args <- liftR (forgetting_view cfg inp tX_cand_current
                                     ty_cand_current X_cand_current) ;;
      ' (sample, utility) <- with_base (base_query args simulate) ;;
      forgetting_loop cfg inp simulate (S i) rest
        (if Nat.eqb (List.length sample) 0
         then sampled_indices else sampled_indices ++ [i])
        (utilities ++ [utility])
  end.

(** [ForgettingWrapper.query] with [return_utilities=True]. *)
Definition forgetting_query (cfg : config B C) (inp : inputs)
  (simulate : bool) : W (list nat * list (list Q)) :=
  _ <- forgetting_validate_data cfg inp ;;
  forgetting_loop cfg inp simulate 0
    (combine (combine (tX_cand inp) (ty_cand inp)) (X_cand inp)) [] [].

(** *** Pieces shared by the bagging and the fuzzy wrapper *)

(** [_validate_delay_prior] (lines 1065-1071, 1525-1531):
    [check_scalar(delay_prior, "delay_prior", (float, int),
    min_val=0.0)]. *)
Definition _validate_delay_prior (cfg : config B C) : result unit :=
  match delay_prior cfg with
  | PyNone => inr tt
  | v =>
      if negb (isinstance_float v || isinstance_int v) then inl TypeError
      else match py_number v with
           | Some p => if negb (Qle_bool 0 p) then inl ValueError else inr tt
           | None => inl TypeError
           end
  end.

(** [_validate_clf] (lines 1087-1105, 1547-1565) for the arrays that
    passed validation ([X] and [y] are then never [None] and [y] is
    1-D). *)
Definition _validate_clf (cfg : config B C) (inp : inputs) : W unit :=
  let data := mk_train (X inp) (y inp) (sample_weight inp) in
  match clf cfg with
  | None =>
      seed <- with_random_state (randint (2 ^ 31 - 1)) ;;
      fun st => (set_clf (Some (mk_clf (PWC seed) (Some data))) st, inr tt)
  | Some c =>
      if is_classifier c
      then fun st => (set_clf (Some (mk_clf c (Some data))) st, inr tt)
      else raise TypeError
  end.

(** The arithmetic of [get_class_probabilities] (lines 893-896):
    add the prior, divide every row by its sum. *)
Definition class_probabilities (frequencies : list (list Q)) (prior : Q)
  : list (list npfloat) :=
  map (fun row =>
         let frequencies_w_prior := map (fun f => f + prior) row in
         map (fun f => np_div f (np_sum frequencies_w_prior))
             frequencies_w_prior)
      frequencies.

(** [get_class_probabilities] (lines 890-897, 1366-1373): [pwc] is an
    alias of [self.clf_], so the fit is persisted. *)
Definition get_class_probabilities (cfg : config B C)
  (X_B_n : list (list Q)) (X0 : list (list Q)) (y0 : list label)
  (sample_weight0 : option (list npfloat)) : W (list (list npfloat)) :=
  fun st =>
    match clf_ st with
    | None => (st, inl AttributeError)
    | Some pwc =>
        let data := mk_train X0 y0 sample_weight0 in
        let st' := set_clf (Some (mk_clf (estimator pwc) (Some data))) st in
        let frequencies := predict_freq (estimator pwc) data X_B_n in
        match py_number (delay_prior cfg) with
        | None => (st', inl TypeError)
        | Some prior => (st', inr (class_probabilities frequencies prior))
        end
    end.

(** The mask of pending instances (lines 784-789, 1244-1248):
    [acquisitions & (ty >= tX_cand_current) & (ty < ty_cand_current)]. *)
Definition pending_mask (inp : inputs) (tX_cand_current ty_cand_current : Q)
  : result (list bool) :=
  let tX_in_A_geq_n := map (fun t => Qle_bool tX_cand_current t) (ty inp) in
  let ty_in_A_geq_n :=
    map (fun t => negb (Qle_bool ty_cand_current t)) (ty inp) in
  bindE (np_broadcast2 andb tX_in_A_geq_n ty_in_A_geq_n) (fun inner =>
  np_broadcast2 andb (acquisitions inp) inner).

(** [(np.max([ty, tX]) + tX_cand_current) / 2] (lines 813, 1266). *)
Definition simulated_ty (inp : inputs) (tX_cand_current : Q) : result Q :=
  bindE (np_max2 (ty inp) (tX inp)) (fun m =>
  inr ((m + tX_cand_current) / 2)).

(** The base query on the data as given (lines 836-850, 1313-1327);
    [fuzzy] selects the misspelt keyword. *)
Definition unmodified_args (inp : inputs) (i : nat)
  (sample_weight0 : option (list npfloat)) (fuzzy : bool)
  : result base_args :=
  bindE (py_index (X_cand inp) i) (fun X_cand_i =>
  bindE (py_index (tX_cand inp) i) (fun tX_cand_i =>
  bindE (py_index (ty_cand inp) i) (fun ty_cand_i =>
  inr (mk_args [X_cand_i] (X inp) (y inp) (tX inp) (ty inp)
               tX_cand_i ty_cand_i sample_weight0
               (if fuzzy then None else Some (acquisitions inp))
               (if fuzzy then Some (acquisitions inp) else None))))).

(** *** BaggingDelaySimulationWrapper *)

(** [_validate_K] (lines 1051-1063). *)
Definition _validate_K (cfg : config B C) : result unit :=
  match K cfg with
  | PyNone => inr tt
  | v =>
      if negb (isinstance_int v) then inl TypeError
      else match py_number v with
           | Some k => if Qle_bool k 0 then inl ValueError else inr tt
           | None => inl TypeError
           end
  end.

(** [BaggingDelaySimulationWrapper._validate_data] (lines 1005-1035). *)
Definition bagging_validate_data (cfg : config B C) (inp : inputs) : W unit :=
  _ <- base_validate_data cfg inp ;;
  _ <- _validate_clf cfg inp ;;
  _ <- liftR (_validate_delay_prior cfg) ;;
  liftR (_validate_K cfg).

(** [[self.random_state_.multinomial(1, p_d) for p_d in probabilities]]
    (lines 804-807). *)
Fixpoint draw_multinomials (probabilities : list (list npfloat)) (r : R)
  : R * list (list nat) :=
  match probabilities with
  | [] => (r, [])
  | p_d :: rest =>
      let '(r1, v) := multinomial 1 p_d r in
      let '(r2, vs) := draw_multinomials rest r1 in
      (r2, v :: vs)
  end.

(** The hypothetical training set of one simulation (lines 810-823). *)
Definition bagging_world (inp : inputs) (i : nat) (map_B_n : list bool)
  (y_B_n : list nat) (tX_cand_current : Q) : result base_args :=
  bindE (np_mask_assign map_B_n (map Some y_B_n) (y inp)) (fun new_y =>
  bindE (simulated_ty inp tX_cand_current) (fun t =>
  bindE (np_mask_fill map_B_n (np_store (ty_dtype inp) t) (ty inp))
    (fun new_ty =>
  bindE (py_index (X_cand inp) i) (fun X_cand_i =>
  bindE (py_index (tX_cand inp) i) (fun tX_cand_i =>
  bindE (py_index (ty_cand inp) i) (fun ty_cand_i =>
  inr (mk_args [X_cand_i] (X inp) new_y (tX inp) new_ty
               tX_cand_i ty_cand_i (sample_weight inp)
               (Some (acquisitions inp)) None))))))).

(** One pass of [for _ in range(self.K)]: draw the labels, query the base
    strategy with [simulate=True] and return [utilities[0]]
    (lines 803-829). *)
Definition bagging_simulation (inp : inputs) (i : nat)
  (map_B_n : list bool) (probabilities : list (list npfloat))
  (tX_cand_current : Q) : W Q :=
  draws <- with_random_state (draw_multinomials probabilities) ;;
  y_B_n <- liftR (np_argmax_axis1 draws) ;;
  args <- liftR (bagging_world inp i map_B_n y_B_n tX_cand_current) ;;
  ' (_, utilities) <- with_base (base_query args true) ;;
  liftR (py_index utilities 0).

(** The [K] passes, adding every utility to each entry of
    [sum_utilities]. *)
Fixpoint bagging_simulations (k : nat) (inp : inputs) (i : nat)
  (map_B_n : list bool) (probabilities : list (list npfloat))
  (tX_cand_current : Q) (sum_utilities : list Q) : W (list Q) :=
  match k with
  | O => ret sum_utilities
  | S k' =>
      u <- bagging_simulation inp i map_B_n probabilities tX_cand_current ;;
      bagging_simulations k' inp i map_B_n probabilities tX_cand_current
        (map (fun s => s + u) sum_utilities)
  end.

(** The body of the candidate loop (lines 784-851): the utility appended
    to [avg_utilities]. *)
Definition bagging_candidate (cfg : config B C) (inp : inputs)
  (simulate : bool) (i : nat) (tX_cand_current ty_cand_current : Q) : W Q :=
  map_B_n <- liftR (pending_mask inp tX_cand_current ty_cand_current) ;;
  if existsb (fun b => b) map_B_n
  then
    X_B_n <- liftR (np_mask_select map_B_n (X inp)) ;;
    probabilities <- get_class_probabilities cfg X_B_n (X inp) (y inp)
                                             (sample_weight inp) ;;
    k <- liftR (py_count (K cfg)) ;;
    sum_utilities <- bagging_simulations k inp i map_B_n probabilities
                       tX_cand_current (repeat 0 k) ;;
    let tmp_avg_utilities :=
      map (fun s => s / inject_Z (Z.of_nat k)) sum_utilities in
    liftR (py_index tmp_avg_utilities 0)
  else
    args <- liftR (unmodified_args inp i (sample_weight inp) false) ;;
    ' (_, tmp_utilities) <- with_base (base_query args simulate) ;;
    liftR (py_index tmp_utilities 0).

(** The loop over [enumerate(zip(tX_cand, ty_cand))]. *)
Fixpoint bagging_loop (cfg : config B C) (inp : inputs) (simulate : bool)
  (i : nat) (cands : list (Q * Q)) (avg_utilities : list Q) : W (list Q) :=
  match cands with
  | [] => ret avg_utilities
  | (tX_cand_current, ty_cand_current) :: rest =>
      u <- bagging_candidate cfg inp simulate i tX_cand_current
                             ty_cand_current ;;
      bagging_loop cfg inp simulate (S i) rest (avg_utilities ++ [u])
  end.

(** [sampled = np.zeros(len(X_cand)); sampled[indices] = 1]. *)
Definition sampled_flags (n : nat) (indices : list nat) : result (list bool) :=
  np_fill_at (repeat false n) indices true.

(** [BaggingDelaySimulationWrapper.query] with [return_utilities=True]
    (lines 751-866). *)
Definition bagging_query (cfg : config B C) (inp : inputs) (simulate : bool)
  : W (list nat * list Q) :=
  _ <- bagging_validate_data cfg inp ;;
  avg_utilities <- bagging_loop cfg inp simulate 0
                     (combine (tX_cand inp) (ty_cand inp)) [] ;;
  sampled_indices <- with_base (budget_manager_sample avg_utilities true) ;;
  sampled <- liftR (sampled_flags (List.length (X_cand inp))
                                  sampled_indices) ;;
  _ <- (if simulate then ret tt
        else with_base (fun b =>
               (base_update (X_cand inp) sampled (Some avg_utilities) b,
                tt))) ;;
  ret (sampled_indices, avg_utilities).

(** *** FuzzyDelaySimulationWrapper *)

(** [FuzzyDelaySimulationWrapper._validate_data] (lines 1481-1509). *)
Definition fuzzy_validate_data (cfg : config B C) (inp : inputs) : W unit :=
  _ <- base_validate_data cfg inp ;;
  _ <- _validate_clf cfg inp ;;
  liftR (_validate_delay_prior cfg).

(** One pseudo-instance: features, label, feature arrival time, weight
    and label arrival time. *)
Record pseudo := mk_pseudo {
  add_X : list Q;
  add_y : nat;
  add_tX : Q;
  add_sample_weight : npfloat;
  add_ty : Q
}.

(** The inner loop [for c in range(probabilities.shape[1])]
    (lines 1271-1277). *)
Fixpoint fuzzy_classes (inp : inputs) (map_B_n : list bool)
  (X_B_n : list (list Q)) (probabilities : list (list npfloat))
  (simulate_ty : Q) (count : nat) (classes : list nat)
  : result (list pseudo) :=
  match classes with
  | [] => inr []
  | c :: rest =>
      bindE (py_index X_B_n count) (fun x =>
      bindE (np_mask_select map_B_n (tX inp)) (fun tX_B =>
      bindE (py_index tX_B count) (fun t =>
      bindE (py_index probabilities count) (fun row =>
      bindE (py_index row c) (fun p =>
      bindE (fuzzy_classes inp map_B_n X_B_n probabilities simulate_ty
                           count rest) (fun more =>
      inr (mk_pseudo x c t p simulate_ty :: more)))))))
  end.

(** The outer loop [for count in range(len(X_B_n))]. *)
Fixpoint fuzzy_additions (inp : inputs) (map_B_n : list bool)
  (X_B_n : list (list Q)) (probabilities : list (list npfloat))
  (simulate_ty : Q) (n_classes : nat) (counts : list nat)
  : result (list pseudo) :=
  match counts with
  | [] => inr []
  | count :: rest =>
      bindE (fuzzy_classes inp map_B_n X_B_n probabilities simulate_ty
                           count (seq 0 n_classes)) (fun here =>
      bindE (fuzzy_additions inp map_B_n X_B_n probabilities simulate_ty
                             n_classes rest) (fun more =>
      inr (here ++ more)))
  end.

(** The augmented training set (lines 1258-1305). [sample_weight0] is the
    local [sample_weight] after line 1259. *)
Definition fuzzy_world (inp : inputs) (i : nat) (map_B_n : list bool)
  (X_B_n : list (list Q)) (probabilities : list (list npfloat))
  (sample_weight0 : list npfloat) (tX_cand_current : Q)
  : result base_args :=
  bindE (simulated_ty inp tX_cand_current) (fun simulate_ty =>
  bindE (match probabilities with
         | [] => inl IndexError
         | row :: _ => inr (List.length row)
         end) (fun n_classes =>
  bindE (fuzzy_additions inp map_B_n X_B_n probabilities simulate_ty
                         n_classes (seq 0 (List.length X_B_n))) (fun adds =>
  bindE (py_index (X_cand inp) i) (fun X_cand_i =>
  bindE (py_index (tX_cand inp) i) (fun tX_cand_i =>
  bindE (py_index (ty_cand inp) i) (fun ty_cand_i =>
  inr (mk_args [X_cand_i]
               (X inp ++ map add_X adds)
               (y inp ++ map (fun a => Some (add_y a)) adds)
               (tX inp ++ map add_tX adds)
               (ty inp ++ map add_ty adds)
               tX_cand_i ty_cand_i
               (Some (sample_weight0 ++ map add_sample_weight adds))
               None
               (Some (acquisitions inp ++ map (fun _ => true) adds))))))))).

(** The local variables the fuzzy loop carries from one candidate to the
    next. *)
Record fuzzy_locals := mk_fuzzy_locals {
  l_sample_weight : option (list npfloat);
  l_sampled_indices : list nat;
  l_utilities : list Q;
  l_tmp_sampled_indices : option (list nat)
}.

(** The body of the candidate loop (lines 1244-1330). *)
Definition fuzzy_candidate (cfg : config B C) (inp : inputs) (i : nat)
  (tX_cand_current ty_cand_current : Q) (l : fuzzy_locals)
  : W fuzzy_locals :=
  map_B_n <- liftR (pending_mask inp tX_cand_current ty_cand_current) ;;
  if existsb (fun b => b) map_B_n
  then
    X_B_n <- liftR (np_mask_select map_B_n (X inp)) ;;
    probabilities <- get_class_probabilities cfg X_B_n (X inp) (y inp)
                                             (l_sample_weight l) ;;
    let sample_weight0 :=
      match l_sample_weight l with
      | None => repeat (Fin 1) (List.length (y inp))
      | Some w => w
      end in
    args <- liftR (fuzzy_world inp i map_B_n X_B_n probabilities
                               sample_weight0 tX_cand_current) ;;
    ' (tmp_sampled_indices, tmp_utilities) <-
        with_base (base_query args true) ;;
    u <- liftR (py_index tmp_utilities 0) ;;
    ret (mk_fuzzy_locals (Some sample_weight0)
           (if Nat.eqb (List.length tmp_sampled_indices) 0
            then l_sampled_indices l else l_sampled_indices l ++ [i])
           (l_utilities l ++ [u])
           (Some tmp_sampled_indices))
  else
    args <- liftR (unmodified_args inp i (l_sample_weight l) true) ;;
    ' (tmp_sampled_indices, tmp_utilities) <-
        with_base (base_query args true) ;;
    u <- liftR (py_index tmp_utilities 0) ;;
    ret (mk_fuzzy_locals (l_sample_weight l)
           (if Nat.eqb (List.length tmp_sampled_indices) 0
            then l_sampled_indices l else l_sampled_indices l ++ [i])
           (l_utilities l ++ [u])
           (Some tmp_sampled_indices)).

Fixpoint fuzzy_loop (cfg : config B C) (inp : inputs) (i : nat)
  (cands : list (Q * Q)) (l : fuzzy_locals) : W fuzzy_locals :=
  match cands with
  | [] => ret l
  | (tX_cand_current, ty_cand_current) :: rest =>
      l' <- fuzzy_candidate cfg inp i tX_cand_current ty_cand_current l ;;
      fuzzy_loop cfg inp (S i) rest l'
  end.

(** [FuzzyDelaySimulationWrapper.query] with [return_utilities=True]
    (lines 1212-1342). *)
Definition fuzzy_query (cfg : config B C) (inp : inputs) (simulate : bool)
  : W (list nat * list Q) :=
  _ <- fuzzy_validate_data cfg inp ;;
  l <- fuzzy_loop cfg inp 0 (combine (tX_cand inp) (ty_cand inp))
                  (mk_fuzzy_locals (sample_weight inp) [] [] None) ;;
  tmp_sampled_indices <-
    match l_tmp_sampled_indices l with
    | None => raise UnboundLocalError
    | Some t => ret t
    end ;;
  sampled <- liftR (sampled_flags (List.length (X_cand inp))
                                  tmp_sampled_indices) ;;
  _ <- (if simulate then ret tt
        else with_base (fun b =>
               (base_update (X_cand inp) sampled (Some (l_utilities l)) b,
                tt))) ;;
  ret (l_sampled_indices l, l_utilities l).

End DelayWrappers.

(** ** Concrete collaborators and inputs used to run the wrappers *)

Module Demo.

(** Number of instances labelled with class [c]. *)
Definition count_label (c : nat) (ys : list label) : nat :=
  List.length (filter (fun l => match l with
                                | Some k => Nat.eqb k c
                                | None => false
                                end) ys).

(** Modelled from the spec: the wrapped base query strategy and its budget
    manager, which are not part of the sources. This strategy scores a
    candidate by the number of training instances labelled with class 1,
    asks [FixedBudget.sample] for the decision (passing [simulate] on) and,
    on [update], counts the candidates as observed and the sampled ones as
    sampled. *)
Definition demo_utility (a : base_args) : Q :=
  inject_Z (Z.of_nat (count_label 1 (a_y a))).

(** The decision of the budget manager for utilities given as fractions;
    should the budget manager raise, this strategy keeps its state and
    samples nothing. *)
Definition demo_sample (utilities : list Q) (simulate : bool)
  (st : FixedBudget.state) : FixedBudget.state * list nat :=
  match FixedBudget.sample (map f64_of_Q utilities) simulate st with
  | (st', inr idx) => (st', idx)
  | (_, inl _) => (st, [])
  end.

Definition demo_query (a : base_args) (simulate : bool)
  (st : FixedBudget.state) : FixedBudget.state * (list nat * list Q) :=
  let '(st', idx) := demo_sample [demo_utility a] simulate st in
  (st', (idx, [demo_utility a])).

(** A clone has the budget of the original and counted nothing yet. *)
Definition demo_clone (st : FixedBudget.state) : result FixedBudget.state :=
  inr (FixedBudget.init (FixedBudget.budget st)).

Definition demo_update (X_cand0 : list (list Q)) (sampled : list bool)
  (utilities : option (list Q)) (st : FixedBudget.state)
  : FixedBudget.state :=
  FixedBudget.mk (FixedBudget.budget st)
    (FixedBudget.observed_instances st + Z.of_nat (List.length sampled))
    (FixedBudget.sampled_instances st + Z.of_nat (count_true sampled)).

#[export] Instance demo_base : BaseStrategy FixedBudget.state := {
  Split := FixedBudget.init (f64_of_Q (1 # 10));
  clone := demo_clone;
  is_stream_strategy := fun _ => true;
  base_query := demo_query;
  base_update := demo_update;
  budget_manager_sample := demo_sample
}.

(** Modelled from the spec: the frequency classifier collaborator
    ([fit], [predict_freq]), which is not part of the sources. For every
    queried row it reports how often classes 0 and 1 occur among the
    labels it was fitted on. [NotAnEstimator] stands for an object that
    [is_classifier] rejects. *)
Inductive demo_estimator : Type :=
| ParzenWindow (seed : Z)
| NotAnEstimator.

Definition demo_is_classifier (c : demo_estimator) : bool :=
  match c with
  | ParzenWindow _ => true
  | NotAnEstimator => false
  end.

Definition demo_predict_freq (c : demo_estimator) (data : train)
  (Xs : list (list Q)) : list (list Q) :=
  map (fun _ => [inject_Z (Z.of_nat (count_label 0 (t_y data)));
                 inject_Z (Z.of_nat (count_label 1 (t_y data)))]) Xs.

#[export] Instance demo_classifier : Classifier demo_estimator := {
  is_classifier := demo_is_classifier;
  PWC := ParzenWindow;
  predict_freq := demo_predict_freq
}.

(** A replayable random generator: its state counts the draws made so
    far. [multinomial] puts all [n] trials on one class of positive
    probability, chosen by the state. *)
Definition is_positive (p : npfloat) : bool :=
  match p with
  | Fin q => negb (Qle_bool q 0)
  | _ => false
  end.

Definition one_hot (len pos n : nat) : list nat :=
  map (fun k => if Nat.eqb k pos then n else 0%nat) (seq 0 len).

Definition demo_multinomial (n : nat) (p : list npfloat) (r : nat)
  : nat * list nat :=
  let positives := np_where (map is_positive p) in
  let pick := nth (r mod List.length positives) positives 0%nat in
  (S r, one_hot (List.length p) pick n).

Definition demo_randint (high : Z) (r : nat) : nat * Z :=
  (S r, Z.of_nat r).

#[export] Instance demo_random_state : RandomState nat := {
  randint := demo_randint;
  multinomial := demo_multinomial
}.

(** The parent class check of the candidate matrix, as [check_array]. *)
Definition demo_super_validate_data (X_cand0 : array_like) : result unit :=
  check_array true X_cand0.

Definition demo_state : Type := wstate FixedBudget.state demo_estimator nat.
Definition demo_config : Type := config FixedBudget.state demo_estimator.

(** A stream of three acquired instances seen by a candidate that arrives
    at time 10 and whose label arrives at time 15. Instance 0 is labelled;
    the label of instance 1 arrives at time 12 (pending for the
    candidate); the label of instance 2 arrives at time 20 (after the
    candidate's own label). *)
Definition stream_inputs : inputs :=
  mk_inputs [[1]]
            [[1]; [2]; [3]]
            [Some 1%nat; None; None]
            [1; 8; 9]
            [3; 12; 20]
            [10]
            [15]
            [true; true; true]
            None DFloat.

(** The same stream one step earlier, before instance 2 was seen. *)
Definition earlier_inputs : inputs :=
  mk_inputs [[1]]
            [[1]; [2]]
            [Some 1%nat; None]
            [1; 8]
            [3; 12]
            [9]
            [14]
            [true; true]
            None DFloat.

(** A stream without pending labels: nothing was acquired. *)
Definition idle_inputs : inputs :=
  mk_inputs [[1]]
            [[1]; [2]]
            [Some 1%nat; None]
            [1; 8]
            [3; 12]
            [10]
            [15]
            [false; false]
            None DFloat.

(** A bagging wrapper with two simulations per candidate. *)
Definition bagging_config : demo_config :=
  mk_config None (PyInt 500) (PyInt 2) (PyFloat (1 # 1000)) None.

(** A fuzzy wrapper with the default prior. *)
Definition fuzzy_config : demo_config :=
  mk_config None PyNone PyNone (PyFloat (1 # 1000)) None.

(** The bagging wrapper constructed with [K=0]. *)
Definition zero_K_config : demo_config :=
  mk_config None (PyInt 500) (PyInt 0) (PyFloat (1 # 1000)) None.

(** The bagging wrapper constructed with [delay_prior=0]. *)
Definition zero_prior_config : demo_config :=
  mk_config None (PyInt 500) (PyInt 2) (PyFloat 0) None.

(** The stream of [stream_inputs] before any label has been observed. *)
Definition unlabelled_inputs : inputs :=
  mk_inputs [[1]]
            [[1]; [2]; [3]]
            [None; None; None]
            [1; 8; 9]
            [3; 12; 20]
            [10]
            [15]
            [true; true; true]
            None DFloat.

(** The stream with integer time stamps: [ty] is an integer array whose
    last label arrives at time 21. *)
Definition integer_inputs : inputs :=
  mk_inputs [[1]]
            [[1]; [2]; [3]]
            [Some 1%nat; None; None]
            [1; 8; 9]
            [3; 12; 21]
            [10]
            [15]
            [true; true; true]
            None DInt.

(** A forgetting wrapper with a window of 7 time units. *)
Definition forgetting_config : demo_config :=
  mk_config None (PyInt 7) PyNone PyNone None.

(** A bagging wrapper constructed around a strategy that has been used
    before: four instances observed, one sampled. *)
Definition used_base_config : demo_config :=
  mk_config (Some (FixedBudget.mk (f64_of_Q (1 # 2)) 4 1))
            (PyInt 500) (PyInt 2) (PyFloat (1 # 1000)) None.

(** A wrapper that ran before: its base strategy exists, its classifier
    was fitted on [earlier_inputs], two random draws were consumed. *)
Definition started_state : demo_state :=
  mk_wstate (Some (FixedBudget.mk (f64_of_Q (1 # 2)) 4 1))
            (Some (mk_clf (ParzenWindow 0)
                          (Some (mk_train (X earlier_inputs)
                                          (y earlier_inputs) None))))
            2%nat.

(** Arrays whose arrival times are shorter than the training data: two
    arrival times for three instances. *)
Definition short_times_raw : raw_inputs :=
  mk_raw (mk_array DFloat [1; 1]%nat true)
         (mk_array DFloat [3; 1]%nat true)
         (mk_array DFloat [3]%nat true)
         (mk_array DFloat [2]%nat true)
         (mk_array DFloat [2]%nat true)
         (mk_array DFloat [1]%nat true)
         (mk_array DFloat [1]%nat true)
         (mk_array DBool [3]%nat true)
         None.

(** An object handed over as base strategy that is a stream strategy only
    when its flag is set; it answers no query and ignores updates. *)
Definition flagged_base : BaseStrategy bool :=
  Build_BaseStrategy bool true (fun b => inr b) (fun b => b)
    (fun _ _ b => (b, ([], [])))
    (fun _ _ _ b => b)
    (fun _ _ b => (b, [])).

(** A wrapper constructed around an object that is no stream strategy. *)
Definition flagged_config : config bool demo_estimator :=
  mk_config (Some false) PyNone PyNone PyNone None.

End Demo.

(** ** Vocabulary of the specification *)









Section BaggingSpecification.

Context {B C R : Type}.
Context {base_strategy : BaseStrategy B} {classifier : Classifier C}
  {random_state : RandomState R}.



End BaggingSpecification.

(** A constructor argument that is set and is of the wrong type or
    negative. *)
Definition wrong_type_or_negative (v : pyval) : bool :=
  match v with
  | PyNone => false
  | PyBool _ => false
  | PyInt z => (z <? 0)%Z
  | PyFloat q => negb (Qle_bool 0 q)
  | PyStr _ => true
  end.

(** A constructor argument that is set and is not a positive integer. *)
Definition not_a_positive_integer (v : pyval) : bool :=
  match v with
  | PyNone => false
  | PyBool b => negb b
  | PyInt z => (z <=? 0)%Z
  | PyFloat _ => true
  | PyStr _ => true
  end.

(** A [clf] argument that is given and is not a classifier. *)
Definition invalid_classifier {C : Type} {classifier : Classifier C}
  (c : option C) : bool :=
  match c with
  | Some e => negb (is_classifier e)
  | None => false
  end.

(** ** Further vocabulary *)

(** A categorical draw that always returns the first position of positive
    probability. *)
Fixpoint first_positive (p : list Q) : nat :=
  match p with
  | [] => 0%nat
  | q :: rest => if Qle_bool q 0 then S (first_positive rest) else 0%nat
  end.

Definition first_positive_rvs (p : list Q) (r : list nat) : list nat * nat :=
  (r, first_positive p).

(** A uniform draw that takes the next scripted outcome modulo the number
    of candidates. *)
Definition scripted_choice (m : nat) (r : list nat) : list nat * nat :=
  match r with
  | [] => ([], 0%nat)
  | d :: r' => (r', (d mod m)%nat)
  end.

(** A computation leaves the part [proj] of the state as it found it,
    whether it returns or raises. *)
Definition preserves {S A F : Type} (proj : S -> F) (m : M S A) : Prop :=
  forall s, proj (fst (m s)) = proj s.

(** The classifier and the random generator of a wrapper: the attributes
    the label simulation works on. *)
Definition simulation_attributes {B C R : Type} (s : wstate B C R)
  : option (clf_state C) * R :=
  (clf_ s, random_state_ s).
(* ================================================================== *)
(** * Theorems *)
(* ================================================================== *)

Import Demo.

(** ** Inversion of monadic computations *)

Lemma bindM_inr {S A B : Type} (m : M S A) (k : A -> M S B) s s' b :
  bindM m k s = (s', inr b) ->
  exists s1 a, m s = (s1, inr a) /\ k a s1 = (s', inr b).
Proof.
  unfold bindM. destruct (m s) as [s1 [e|a]]; intros Hm.
  - discriminate.
  - exists s1, a. split; [reflexivity | exact Hm].
Qed.

Lemma liftR_inr {S A : Type} (r : result A) (s s' : S) a :
  liftR r s = (s', inr a) -> s' = s /\ r = inr a.
Proof. unfold liftR. intros Hr. inversion Hr; subst. split; reflexivity. Qed.

Lemma bindE_inr {A B : Type} (m : result A) (k : A -> result B) b :
  bindE m k = inr b -> exists a, m = inr a /\ k a = inr b.
Proof.
  destruct m as [e|a]; simpl; intros Hm; [discriminate|].
  exists a. split; [reflexivity | exact Hm].
Qed.

Lemma bindM_inl {S A B : Type} (m : M S A) (k : A -> M S B) s s' e :
  m s = (s', inl e) -> bindM m k s = (s', inl e).
Proof. unfold bindM. intros ->. reflexivity. Qed.

Lemma bindM_step {S A B : Type} (m : M S A) (k : A -> M S B) s s' a :
  m s = (s', inr a) -> bindM m k s = k a s'.
Proof. unfold bindM. intros ->. reflexivity. Qed.

Section WrapperFacts.

Context {B C R : Type}.
Context {base_strategy : BaseStrategy B} {classifier : Classifier C}
  {random_state : RandomState R}.

Lemma with_base_inr {A : Type} (f : B -> B * A) (s s' : wstate B C R) a :
  with_base f s = (s', inr a) ->
  exists b, base_query_strategy_ s = Some b /\
            a = snd (f b) /\ s' = set_base (Some (fst (f b))) s.
Proof.
  unfold with_base. destruct (base_query_strategy_ s) as [b|];
    [|discriminate].
  destruct (f b) as [b' a'] eqn:E. intros Hf. inversion Hf; subst.
  exists b. rewrite E. repeat split.
Qed.


End WrapperFacts.

(** ** Facts about the numpy-like helpers *)

Lemma np_where_from_In (mask : list bool) : forall o i,
  In i (np_where_from o mask) <->
  exists k, i = (o + k)%nat /\ nth_error mask k = Some true.
Proof.
  induction mask as [|b rest IH]; intros o i; simpl.
  - split; [tauto|]. intros [k [_ H]]. destruct k; discriminate.
  - destruct b; simpl; rewrite ?IH; split.
    + intros [H | [k [H1 H2]]].
      * exists 0%nat. split; [lia | reflexivity].
      * exists (S k). split; [lia | exact H2].
    + intros [[|k] [H1 H2]].
      * left; lia.
      * right. exists k. split; [lia | exact H2].
    + intros [k [H1 H2]]. exists (S k). split; [lia | exact H2].
    + intros [[|k] [H1 H2]]; [discriminate|].
      exists k. split; [lia | exact H2].
Qed.

Lemma np_where_from_lower (mask : list bool) : forall o i,
  In i (np_where_from o mask) -> (o <= i)%nat.
Proof.
  intros o i H. apply np_where_from_In in H. destruct H as [k [H _]]. lia.
Qed.

Lemma np_where_from_sorted (mask : list bool) : forall o,
  StronglySorted lt (np_where_from o mask).
Proof.
  induction mask as [|b rest IH]; intros o; simpl.
  - constructor.
  - destruct b; [|apply IH].
    constructor; [apply IH|].
    apply Forall_forall. intros j Hj.
    apply np_where_from_lower in Hj. lia.
Qed.

Lemma np_where_from_length (mask : list bool) : forall o,
  List.length (np_where_from o mask) = count_true mask.
Proof.
  unfold count_true.
  induction mask as [|b rest IH]; intros o; simpl; [reflexivity|].
  destruct b; simpl; rewrite IH; reflexivity.
Qed.

Lemma count_before_np_where (mask : list bool) : forall o k,
  count_before (o + k) (np_where_from o mask)
  = Z.of_nat (count_true (firstn k mask)).
Proof.
  unfold count_before, count_true.
  induction mask as [|b rest IH]; intros o k; simpl.
  - destruct k; reflexivity.
  - destruct k as [|k].
    + simpl. replace (o + 0)%nat with o by lia.
      assert (E : forall l, (forall j, In j l -> (o <= j)%nat) ->
                  filter (fun j => Nat.ltb j o) l = []).
      { induction l as [|x l IHl]; intros Hl; simpl; [reflexivity|].
        destruct (Nat.ltb_spec x o) as [Hx|Hx].
        - specialize (Hl x (or_introl eq_refl)). lia.
        - apply IHl. intros j Hj. apply Hl. right; exact Hj. }
      destruct b; simpl.
      * rewrite (proj2 (Nat.ltb_ge o o)) by lia.
        rewrite E; [reflexivity|].
        intros j Hj. apply np_where_from_lower in Hj. lia.
      * rewrite E; [reflexivity|].
        intros j Hj. apply np_where_from_lower in Hj. lia.
    + replace (o + S k)%nat with (S o + k)%nat by lia.
      destruct b; simpl.
      * destruct (Nat.ltb_spec o (S (o + k))) as [_|Hx]; [|lia].
        simpl. specialize (IH (S o) k). simpl in IH. lia.
      * exact (IH (S o) k).
Qed.

(** ** FixedBudget.sample *)

Section FixedBudgetFacts.
Import FixedBudget.

Lemma int64_below_float_range :
  (2 ^ 63 < 2 ^ 1024 - 2 ^ 970)%Z.
Proof. vm_compute. reflexivity. Qed.

Lemma py_float_int64 (n : Z) :
  (- 2 ^ 63 <= n <= 2 ^ 63)%Z -> py_float n = inr (f64_of_Z n).
Proof.
  intros Hn. unfold py_float.
  pose proof int64_below_float_range as Hr.
  destruct (Z.ltb_spec (Z.abs n) (2 ^ 1024 - 2 ^ 970)) as [_|Hge];
    [reflexivity|].
  exfalso. apply Z.abs_le in Hn. lia.
Qed.

Lemma np_add_bool_int64 (n : Z) (flag : bool) :
  (- 2 ^ 63 <= n)%Z -> (n + 1 < 2 ^ 63)%Z ->
  np_add_bool n flag = inr (n + (if flag then 1 else 0))%Z.
Proof.
  intros Hlo Hhi. unfold np_add_bool, in_int64, wrap_int64.
  change (2 ^ 64)%Z with (2 * 2 ^ 63)%Z.
  destruct (Z.leb_spec (- 2 ^ 63) n) as [_|]; [|lia].
  destruct (Z.ltb_spec n (2 ^ 63)) as [_|]; [|lia].
  simpl andb. cbv iota. f_equal.
  rewrite Z.mod_small by (destruct flag; lia). lia.
Qed.

(** One iteration on counters within the integer range. *)
Lemma step_spec (st : state) (u : float64) :
  counters_in_int64 st 1 ->
  let bl := budget_test (budget st) (observed_instances st + 1)
                        (sampled_instances st) in
  let s := sample_test (budget st) (observed_instances st + 1)
                       (sampled_instances st) u in
  step u st
  = (mk (budget st) (observed_instances st + 1)
        (sampled_instances st + (if s then 1 else 0)), inr (bl, s)).
Proof.
  intros (Ho1 & Ho2 & Hs1 & Hs2) bl s. unfold step, is_budget_left.
  cbn [budget observed_instances sampled_instances].
  change (Z.of_nat 1) with 1%Z in *.
  rewrite py_float_int64 by lia. cbn [bindE].
  rewrite py_float_int64 by lia. cbn [bindE].
  rewrite np_add_bool_int64 by lia. reflexivity.
Qed.

(** A run of the loop that returns leaves the budget alone and fills one
    entry of each array per utility. *)
Lemma loop_returns (utilities : list float64) : forall st st' bls ss,
  loop utilities st = (st', inr (bls, ss)) ->
  budget st' = budget st /\
  List.length bls = List.length utilities /\
  List.length ss = List.length utilities /\
  forall k,
    nth_error ss k
    = match nth_error bls k, nth_error utilities k with
      | Some bl, Some u =>
          Some (bl && f64_leb (f64_sub f64_one (budget st)) u)
      | _, _ => None
      end.
Proof.
  induction utilities as [|u rest IH]; intros st st' bls ss Hl;
    cbn [loop] in Hl.
  - inversion Hl; subst. repeat split. intros [|k]; reflexivity.
  - apply bindM_inr in Hl. destruct Hl as [st1 [[bl s] [Hstep Hl]]].
    apply bindM_inr in Hl. destruct Hl as [st2 [[bls2 ss2] [Hrest Hl]]].
    inversion Hl; subst; clear Hl.
    assert (Hs : budget st1 = budget st /\
                 s = bl && f64_leb (f64_sub f64_one (budget st)) u).
    { unfold step in Hstep.
      destruct (is_budget_left _) as [e|bl0]; [discriminate|].
      destruct (np_add_bool _ _) as [e|n]; [discriminate|].
      inversion Hstep; subst. split; reflexivity. }
    destruct Hs as [Hb Hs].
    destruct (IH _ _ _ _ Hrest) as [Hb2 [Hl1 [Hl2 Hn]]].
    split; [congruence|]. split; [simpl; lia|]. split; [simpl; lia|].
    intros [|k]; simpl.
    + rewrite Hs. reflexivity.
    + rewrite Hn, Hb. reflexivity.
Qed.

(** What one run of the loop does to the counters and what it writes into
    the two arrays, for counters within the integer range. *)
Lemma loop_spec (utilities : list float64) : forall st,
  counters_in_int64 st (List.length utilities) ->
  exists st' bls ss,
    loop utilities st = (st', inr (bls, ss)) /\
    budget st' = budget st /\
    observed_instances st'
      = (observed_instances st + Z.of_nat (List.length utilities))%Z /\
    sampled_instances st'
      = (sampled_instances st + Z.of_nat (count_true ss))%Z /\
    List.length ss = List.length utilities /\
    forall k u, nth_error utilities k = Some u ->
      nth_error ss k = Some
        (sample_test (budget st)
           (observed_instances st + Z.of_nat k + 1)
           (sampled_instances st + Z.of_nat (count_true (firstn k ss))) u).
Proof.
  induction utilities as [|u rest IH]; intros st Hr; cbn [loop].
  - exists st, [], []. unfold count_true. simpl.
    repeat split; try lia. intros k u Hk. destruct k; discriminate.
  - destruct Hr as (Ho1 & Ho2 & Hs1 & Hs2).
    cbn [List.length] in Ho2, Hs2. rewrite Nat2Z.inj_succ in Ho2, Hs2.
    assert (H1 : counters_in_int64 st 1).
    { unfold counters_in_int64. change (Z.of_nat 1) with 1%Z. lia. }
    pose proof (step_spec st u H1) as Hstep. cbv zeta in Hstep.
    set (s := sample_test (budget st) (observed_instances st + 1)
                          (sampled_instances st) u) in *.
    set (st1 := mk (budget st) (observed_instances st + 1)
                   (sampled_instances st + (if s then 1 else 0))) in *.
    assert (Hr1 : counters_in_int64 st1 (List.length rest)).
    { unfold counters_in_int64, st1. simpl. destruct s; lia. }
    destruct (IH st1 Hr1) as (st' & bls & ss & Hl & Hb & Ho & Hs & Hlen & Hn).
    eexists st', _, (s :: ss).
    split.
    { rewrite (bindM_step _ _ _ _ _ Hstep).
      rewrite (bindM_step _ _ _ _ _ Hl). reflexivity. }
    unfold count_true in *. simpl in Hb, Ho, Hs.
    split; [exact Hb|]. split; [cbn [List.length]; lia|].
    split; [destruct s; cbn [filter List.length]; lia|].
    split; [simpl; lia|].
    intros [|k] u' Hk; simpl in Hk.
    + inversion Hk; subst u'. simpl. fold s.
      f_equal. unfold s. f_equal; lia.
    + cbn [nth_error firstn]. rewrite (Hn k u' Hk). unfold st1. simpl.
      f_equal. f_equal; [lia|]. destruct s; cbn [filter List.length]; lia.
Qed.

(** C10 (as amended). For counters within the [int64] range,
    [FixedBudget.sample] returns, in increasing order, exactly the
    positions [i] whose running budget test succeeds
    ([(observed + i + 1) * b - (sampled + number sampled before i) >= 1])
    and whose utility is at least [1 - b], every operation carried out in
    floats as the code does. With [simulate=True] it returns the same
    indices and leaves the state as it was; with [simulate=False] it adds
    [len(utilities)] to [observed_instances] and the number of returned
    indices to [sampled_instances]. *)
Theorem FixedBudget_sample_spec (utilities : list float64) (st : state) :
  counters_in_int64 st (List.length utilities) ->
  exists idx st_commit,
    sample utilities false st = (st_commit, inr idx) /\
    (forall i, In i idx <->
       exists u, nth_error utilities i = Some u /\
         sample_test (budget st)
           (observed_instances st + Z.of_nat i + 1)
           (sampled_instances st + count_before i idx) u = true) /\
    StronglySorted lt idx /\
    sample utilities true st = (st, inr idx) /\
    observed_instances st_commit
      = (observed_instances st + Z.of_nat (List.length utilities))%Z /\
    sampled_instances st_commit
      = (sampled_instances st + Z.of_nat (List.length idx))%Z /\
    budget st_commit = budget st.
Proof.
  intros Hr.
  destruct (loop_spec utilities st Hr)
    as (st1 & bls & ss & Hl & Hb & Ho & Hs & Hlen & Hn).
  exists (np_where ss), st1.
  unfold sample, sample_full, bindM, ret. rewrite Hl.
  unfold np_where.
  split; [reflexivity|]. split; [|split; [|split; [|split; [|split]]]].
  - intros i. rewrite np_where_from_In. simpl.
    pose proof (count_before_np_where ss 0 i) as Hc. simpl in Hc.
    rewrite Hc. clear Hc.
    split.
    + intros [k [Hk Hss]]. subst k.
      destruct (nth_error utilities i) as [u|] eqn:Hu.
      * exists u. split; [reflexivity|].
        rewrite (Hn i u Hu) in Hss. inversion Hss as [Hand].
        rewrite Hand. reflexivity.
      * apply nth_error_None in Hu.
        assert (Hne : nth_error ss i <> None) by congruence.
        apply nth_error_Some in Hne. lia.
    + intros [u [Hu Ht]]. exists i. split; [reflexivity|].
      rewrite (Hn i u Hu). f_equal. exact Ht.
  - apply np_where_from_sorted.
  - rewrite Hb. destruct st; reflexivity.
  - exact Ho.
  - rewrite np_where_from_length. exact Hs.
  - exact Hb.
Qed.

End FixedBudgetFacts.

(** Budget 0.3 after nine unsampled instances: the tenth is sampled for a
    utility of 0.7, the eleventh is not for a utility of 0.2. *)
Lemma FixedBudget_sample_spec_witness :
  exists st_commit,
    FixedBudget.sample [f64_of_Q (7 # 10); f64_of_Q (2 # 10)] false
      (FixedBudget.mk (f64_of_Q (3 # 10)) 9 0)
    = (st_commit, inr [0%nat]) /\
    FixedBudget.observed_instances st_commit = 11%Z /\
    FixedBudget.sampled_instances st_commit = 1%Z.
Proof.
  destruct (FixedBudget_sample_spec
              [f64_of_Q (7 # 10); f64_of_Q (2 # 10)]
              (FixedBudget.mk (f64_of_Q (3 # 10)) 9 0))
    as (idx & st_commit & Hs & _ & _ & _ & Ho & Hn & _).
  - unfold counters_in_int64. simpl. lia.
  - exists st_commit.
    assert (Hidx : idx = [0%nat]).
    { vm_compute in Hs. inversion Hs. reflexivity. }
    subst idx. split; [exact Hs|]. split; [exact Ho | exact Hn].
Defined.

(** C10, counterexample. Read over the exact values of the floats, the
    claimed test fails for budget 0.3 and utility 0.7 ([1 - b] is slightly
    above the float 0.7), yet the code samples the instance: its [1 - b]
    is rounded, to the float 0.7. And a counter that no float can hold
    makes the call raise, also under [simulate=True], with the counter
    advanced. *)
Lemma FixedBudget_sample_rounds_and_overflows :
  FixedBudget.sample [f64_of_Q (7 # 10)] false
    (FixedBudget.mk (f64_of_Q (3 # 10)) 9 0)
  = (FixedBudget.mk (f64_of_Q (3 # 10)) 10 1, inr [0%nat]) /\
  (exists b u,
     f64_to_Q (f64_of_Q (3 # 10)) = Some b /\
     f64_to_Q (f64_of_Q (7 # 10)) = Some u /\
     ~ (In 0%nat [0%nat] <->
        1 <= inject_Z 10 * b - inject_Z 0 /\ 1 - b <= u)) /\
  FixedBudget.sample [f64_of_Q (7 # 10)] true
    (FixedBudget.mk (f64_of_Q (3 # 10)) (2 ^ 1024) 0)
  = (FixedBudget.mk (f64_of_Q (3 # 10)) (2 ^ 1024 + 1) 0,
     inl OverflowError).
Proof.
  split; [vm_compute; reflexivity|]. split.
  - eexists _, _. split; [vm_compute; reflexivity|].
    split; [vm_compute; reflexivity|].
    intros [Hin _]. destruct (Hin (or_introl eq_refl)) as [_ Hle].
    vm_compute in Hle. apply Hle. reflexivity.
  - vm_compute. reflexivity.
Qed.

(** ** Badge.query *)

Section BadgeFacts.
Import Badge.

Section BadgeRounds.

Variable dist : list Q -> list Q -> Q.
Variable R : Type.
Variable choice : nat -> R -> R * nat.
Variable rvs : list Q -> R -> R * nat.

Lemma round_appends_pool_index (g_x : list (list Q))
  (unlbld_mapping : list nat) (n_samples i : nat)
  (st st' : loop_state R) :
  round dist R choice rvs g_x unlbld_mapping n_samples i st = inr st' ->
  exists idx,
    In idx unlbld_mapping /\
    query_indicies R st' = query_indicies R st ++ [idx].
Proof.
  unfold round. intros Hr.
  apply bindE_inr in Hr. destruct Hr as [[d_probas is_randomized] [_ Hr]].
  apply bindE_inr in Hr. destruct Hr as [row0 [_ Hr]].
  apply bindE_inr in Hr. destruct Hr as [row [_ Hr]].
  destruct (if is_randomized
            then choice (List.length g_x) (random_state_ R st)
            else rvs d_probas (random_state_ R st)) as [rs idx_in].
  apply bindE_inr in Hr. destruct Hr as [idx [Hidx Hr]].
  inversion Hr; subst st'; clear Hr. simpl.
  exists idx. split; [|reflexivity].
  unfold py_index in Hidx.
  destruct (nth_error unlbld_mapping idx_in) as [x|] eqn:E;
    [|discriminate].
  inversion Hidx; subst x. eapply nth_error_In. exact E.
Qed.

Lemma rounds_append_pool_indices (g_x : list (list Q))
  (unlbld_mapping : list nat) (n_samples : nat) :
  forall todo i (st st' : loop_state R),
  rounds dist R choice rvs g_x unlbld_mapping n_samples todo i st = inr st' ->
  exists chosen,
    List.length chosen = todo /\
    Forall (fun idx => In idx unlbld_mapping) chosen /\
    query_indicies R st' = query_indicies R st ++ chosen.
Proof.
  induction todo as [|todo IH]; intros i st st' Hr; simpl in Hr.
  - inversion Hr; subst. exists []. rewrite app_nil_r.
    repeat split. constructor.
  - apply bindE_inr in Hr. destruct Hr as [st1 [H1 Hr]].
    apply round_appends_pool_index in H1. destruct H1 as [idx [Hin Hq]].
    apply IH in Hr. destruct Hr as [chosen [Hl [Hall Hq']]].
    exists (idx :: chosen). simpl. repeat split.
    + lia.
    + constructor; assumption.
    + rewrite Hq', Hq, <- app_assoc. reflexivity.
Qed.

(** The part of C2 that holds of every run: a query that returns, returns
    [batch_size] indices, each one the sample index of an unlabeled
    candidate. *)
Lemma badge_query_indices_from_pool (probas X_emb : list (list Q))
  (unlbld_mapping : list nat) (n_samples batch_size : nat) (rs rs' : R)
  (query_indices : list nat) (us : list (list (option Q))) :
  query dist R choice rvs probas X_emb unlbld_mapping n_samples batch_size rs
  = inr (rs', (query_indices, us)) ->
  List.length query_indices = batch_size /\
  Forall (fun idx => In idx unlbld_mapping) query_indices.
Proof.
  unfold query. intros Hq.
  apply bindE_inr in Hq. destruct Hq as [g_x [_ Hq]].
  apply bindE_inr in Hq. destruct Hq as [st [Hr Hq]].
  inversion Hq; subst; clear Hq.
  apply rounds_append_pool_indices in Hr.
  destruct Hr as [chosen [Hl [Hall Hq]]]. simpl in Hq.
  rewrite Hq. split; assumption.
Qed.

End BadgeRounds.

(** C2. A run of [Badge.query] that returns the same index twice. Two
    unlabeled candidates, a classifier that predicts one class with
    probability 1 (so every gradient embedding is the zero vector), and
    [batch_size = 2]. Round 0 draws uniformly and gets candidate 0. In round
    1 all squared distances sum to zero, [_d_probability] reports the
    randomized case, and the uniform draw over [len(g_x) = 2] candidates may
    return 0 again: it does in this run. *)
Theorem badge_query_repeats_index :
  query euclidean_1d (list nat) scripted scripted
        [[1]; [1]] [[5]; [7]] [0; 1]%nat 2 2 [0; 0]%nat
  = inr ([], ([0; 0]%nat,
              [[Some 1; Some 1]; [None; Some 1]])) /\
  ~ NoDup [0; 0]%nat.
Proof.
  split.
  - vm_compute. reflexivity.
  - intros H. inversion H as [|x l Hin _]; subst. apply Hin. left; reflexivity.
Qed.

(** C3. Round 1 of [Badge.query] does not use the normalised squared
    distance to the nearest selected point. Three unlabeled candidates
    whose gradient embeddings are 0, 3 and 10 (features 0, -6 and -20 with
    [p_max = 1/2]); round 0 selects candidate 0. The loop passes
    [D_p[0]], the vector of ones that round 0 recorded as probabilities, as
    [d_latest], so every distance is capped at 1 and round 1 draws from
    (0, 1/2, 1/2), recorded in [utilities[1]] (the selected candidate is
    overwritten with nan). Direct recomputation over the selected set gives
    (0, 9/109, 100/109). *)
Theorem badge_round1_not_nearest_distance :
  let probas := [[1#2; 1#2]; [1#2; 1#2]; [1#2; 1#2]] in
  let X_emb := [[0]; [-6 # 1]; [-20 # 1]] in
  (exists us,
     query euclidean_1d (list nat) scripted scripted
           probas X_emb [0; 1; 2]%nat 3 2 [0; 2]%nat
     = inr ([], ([0; 2]%nat, us)) /\
     map (map (option_map Qred)) us
     = [[Some 1; Some 1; Some 1]; [None; Some (1#2); Some (1#2)]]) /\
  (exists g_x p q,
     gradient_embedding probas X_emb = inr g_x /\
     _d_probability euclidean_1d g_x [0%nat] (Some (np_ones 3))
     = inr (p, false) /\
     map Qred p = [0; 1#2; 1#2] /\
     direct_probability euclidean_1d g_x [0%nat] = inr q /\
     map Qred q = [0; 9#109; 100#109] /\
     ~ Forall2 Qeq p q).
Proof.
  split.
  - eexists. split; vm_compute; reflexivity.
  - do 3 eexists.
    split; [vm_compute; reflexivity|].
    split; [vm_compute; reflexivity|].
    split; [vm_compute; reflexivity|].
    split; [vm_compute; reflexivity|].
    split; [vm_compute; reflexivity|].
    intros H. inversion H as [|a b l l' _ H1]; subst.
    inversion H1 as [|a' b' l2 l2' Hab _]; subst.
    vm_compute in Hab. discriminate.
Qed.

End BadgeFacts.

(** ** Array validation of the delay wrappers *)

Lemma bindE_unit_ok (m : result unit) (k : unit -> result unit) :
  bindE m k = inr tt <-> m = inr tt /\ k tt = inr tt.
Proof.
  destruct m as [e|[]]; simpl; split.
  - discriminate.
  - intros [H _]; discriminate.
  - intros H; split; [reflexivity | exact H].
  - intros [_ H]; exact H.
Qed.

Lemma check_consistent_length_ok (a b : array_like) :
  check_consistent_length a b = inr tt <-> same_length a b = true.
Proof.
  unfold check_consistent_length, same_length, _num_samples.
  destruct (al_shape a) as [|n sa]; simpl.
  - split; discriminate.
  - destruct (al_shape b) as [|m sb]; simpl.
    + split; discriminate.
    + destruct (Nat.eqb n m); split; congruence.
Qed.

Lemma check_array_1d_ok (a : array_like) :
  check_array false a = inr tt <-> time_array_ok a = true.
Proof.
  unfold check_array, time_array_ok, _num_samples, ndim.
  destruct (is_numeric (al_dtype a)); simpl; [|split; discriminate].
  destruct (al_shape a) as [|n [|m [|k rest]]]; simpl;
    destruct (al_finite a); simpl; try (split; discriminate).
  - destruct n; simpl; split; congruence.
  - destruct n; simpl; [split; discriminate|].
    destruct m; simpl; split; congruence.
Qed.

Lemma check_array_2d_ok (a : array_like) :
  check_array true a = inr tt <->
  is_numeric (al_dtype a) && al_finite a &&
  match al_shape a with
  | [n; m] => Nat.leb 1 n && Nat.leb 1 m
  | _ => false
  end = true.
Proof.
  unfold check_array, _num_samples, ndim.
  destruct (is_numeric (al_dtype a)); simpl; [|split; discriminate].
  destruct (al_shape a) as [|n [|m [|k rest]]]; simpl;
    destruct (al_finite a); simpl; try (split; discriminate).
  destruct n; simpl; [split; discriminate|].
  destruct m; simpl; split; congruence.
Qed.

(** C8 (as amended). The array validators accept a call exactly when:
    [sample_weight], if given, is as long as [y]; [X] is a finite numeric
    2-D matrix with at least one row and one column, as long as [y];
    [acquisitions] has boolean dtype; each of [tX], [ty], [tX_cand],
    [ty_cand] is numeric, finite, non-empty and 1-D or 2-D; [tX] is as long
    as [ty] and [tX_cand] as long as [ty_cand]. Every other input raises. *)
Theorem validate_arrays_accepts_iff (r : raw_inputs) :
  validate_arrays r = inr tt <-> arrays_ok r = true.
Proof.
  unfold validate_arrays, arrays_ok, _validate_X_y_sample_weight,
    _validate_tX_ty, _validate_tX_cand_ty_cand.
  rewrite !bindE_unit_ok, !check_array_1d_ok, !check_array_2d_ok,
    !check_consistent_length_ok, !andb_true_iff.
  assert (Hsw : match raw_sample_weight r with
                | Some sw => check_consistent_length sw (raw_y r)
                | None => inr tt
                end = inr tt <->
                match raw_sample_weight r with
                | Some sw => same_length sw (raw_y r)
                | None => true
                end = true).
  { destruct (raw_sample_weight r);
      [apply check_consistent_length_ok | split; reflexivity]. }
  assert (Hacq : _validate_acquisitions (raw_acquisitions r) = inr tt <->
                 match al_dtype (raw_acquisitions r) with
                 | DBool => true | _ => false end = true).
  { unfold _validate_acquisitions.
    destruct (al_dtype (raw_acquisitions r)); split; congruence. }
  rewrite Hsw, Hacq. rewrite ?andb_true_iff. tauto.
Qed.

(** C8, counterexample. [tX] and [ty] hold two arrival times while [X] and
    [y] hold three instances: the specification's condition fails, yet no
    validator raises. *)
Lemma validate_arrays_misses_length_mismatch :
  ~ ((spec_arrays_ok Demo.short_times_raw = false ->
      exists e, validate_arrays Demo.short_times_raw = inl e) /\
     (spec_arrays_ok Demo.short_times_raw = true ->
      validate_arrays Demo.short_times_raw = inr tt)).
Proof.
  intros [H _].
  destruct (H eq_refl) as [e He]. vm_compute in He. discriminate.
Qed.

(** ** Boolean masks and index lists *)

Lemma np_mask_select_total {A : Type} (mask : list bool) : forall xs : list A,
  List.length xs = List.length mask ->
  exists r, np_mask_select mask xs = inr r.
Proof.
  induction mask as [|m mask IH]; intros [|x xs] Hlen; simpl in *;
    try discriminate.
  - eexists; reflexivity.
  - destruct (IH xs) as [r Hr]; [lia|]. rewrite Hr. simpl.
    eexists; reflexivity.
Qed.




(** ** Class probabilities of the pending instances *)

Lemma np_sum_acc (l : list Q) : forall a,
  fold_left Qplus l a == a + np_sum l.
Proof.
  unfold np_sum.
  induction l as [|x l IH]; intros a; simpl.
  - ring.
  - rewrite IH. rewrite (IH (0 + x)). ring.
Qed.

Lemma np_sum_cons (x : Q) (l : list Q) : np_sum (x :: l) == x + np_sum l.
Proof.
  unfold np_sum at 1. simpl. rewrite np_sum_acc. ring.
Qed.

Lemma np_sum_map_div (l : list Q) (s : Q) :
  ~ s == 0 -> np_sum (map (fun x => x / s) l) == np_sum l / s.
Proof.
  intros Hs. induction l as [|x l IH]; simpl.
  - unfold np_sum. simpl. field. exact Hs.
  - rewrite !np_sum_cons, IH. field. exact Hs.
Qed.

Lemma np_sum_zero_row (row : list Q) (prior : Q) :
  Forall (fun f => f == 0) row ->
  np_sum (map (fun f => f + prior) row)
  == inject_Z (Z.of_nat (List.length row)) * prior.
Proof.
  induction 1 as [|f row Hf _ IH].
  - unfold np_sum. simpl. ring.
  - cbn [map List.length]. rewrite np_sum_cons, IH, Hf.
    rewrite Nat2Z.inj_succ. unfold Z.succ. rewrite inject_Z_plus. ring.
Qed.

Lemma np_div_finite (a b : Q) : ~ b == 0 -> np_div a b = Fin (a / b).
Proof.
  intros Hb. unfold np_div.
  destruct (Qeq_bool b 0) eqn:E; [|reflexivity].
  apply Qeq_bool_iff in E. contradiction.
Qed.

(** For a prior [>= 0], every row of non-negative frequencies whose
    frequencies-plus-prior have a positive total is turned into finite,
    non-negative probabilities that sum to 1; a row of zero frequencies
    becomes the uniform prior-only distribution. *)
Lemma class_probabilities_rows (frequencies : list (list Q)) (prior : Q) :
  0 <= prior ->
  Forall2
    (fun row probs =>
       (forall f, In f row -> 0 <= f) ->
       0 < np_sum (map (fun f => f + prior) row) ->
       exists qs,
         probs = map Fin qs /\
         List.length qs = List.length row /\
         np_sum qs == 1 /\
         Forall (fun q => 0 <= q) qs /\
         (Forall (fun f => f == 0) row ->
          Forall (fun q =>
                    q == 1 / inject_Z (Z.of_nat (List.length row))) qs))
    frequencies (class_probabilities frequencies prior).
Proof.
  intros Hp. unfold class_probabilities.
  induction frequencies as [|row rest IH]; simpl; constructor;
    [|exact IH].
  intros Hf Hpos.
  set (w := map (fun f => f + prior) row) in *.
  assert (Hne : ~ np_sum w == 0) by lra.
  exists (map (fun f => f / np_sum w) w).
  split; [|split; [|split; [|split]]].
  - rewrite map_map. apply map_ext. intros a.
    apply np_div_finite. exact Hne.
  - unfold w. rewrite !length_map. reflexivity.
  - rewrite np_sum_map_div by exact Hne. field. exact Hne.
  - apply Forall_forall. intros q Hq.
    apply in_map_iff in Hq. destruct Hq as [v [<- Hv]].
    unfold w in Hv. apply in_map_iff in Hv. destruct Hv as [f [<- Hin]].
    assert (0 <= f) by (apply Hf; exact Hin).
    apply Qle_shift_div_l; [exact Hpos | lra].
  - intros Hz. apply Forall_forall. intros q Hq.
    apply in_map_iff in Hq. destruct Hq as [v [<- Hv]].
    unfold w in Hv. apply in_map_iff in Hv. destruct Hv as [f [<- Hin]].
    assert (Hf0 : f == 0)
      by (rewrite Forall_forall in Hz; apply Hz; exact Hin).
    pose proof (np_sum_zero_row row prior Hz) as Hsum. fold w in Hsum.
    rewrite Hsum in Hne, Hpos |- *. rewrite Hf0.
    assert (Hn : ~ inject_Z (Z.of_nat (List.length row)) == 0).
    { intros E. rewrite E in Hne. apply Hne. ring. }
    assert (Hpr : ~ prior == 0).
    { intros E. rewrite E in Hne. apply Hne. ring. }
    field. split; assumption.
Qed.

(** A positive prior and at least one class make the total positive. *)
Lemma positive_prior_total (row : list Q) (prior : Q) :
  0 < prior -> row <> [] -> (forall f, In f row -> 0 <= f) ->
  0 < np_sum (map (fun f => f + prior) row).
Proof.
  intros Hp Hne Hf.
  assert (G : forall l, (forall f, In f l -> 0 <= f) ->
              0 <= np_sum (map (fun f => f + prior) l)).
  { induction l as [|x l IHl]; intros Hl; simpl.
    - unfold np_sum; simpl; lra.
    - rewrite np_sum_cons.
      assert (0 <= x) by (apply Hl; left; reflexivity).
      assert (0 <= np_sum (map (fun f => f + prior) l))
        by (apply IHl; intros f Hin; apply Hl; right; exact Hin).
      lra. }
  destruct row as [|x row]; [contradiction|]. simpl.
  rewrite np_sum_cons.
  assert (0 <= x) by (apply Hf; left; reflexivity).
  assert (0 <= np_sum (map (fun f => f + prior) row))
    by (apply G; intros f Hin; apply Hf; right; exact Hin).
  lra.
Qed.

(** ** The simulated label arrival time *)









(** With an integer array [ty] the assignment [new_ty[map_B_n] = ...] of
    the bagging wrapper converts the simulated time to an integer: the
    midpoint (21 + 10) / 2 = 15.5 is stored as 15. *)
Lemma bagging_integer_times_lose_fraction :
  simulated_ty integer_inputs 10 = inr ((21 + 10) / 2) /\
  exists args,
    bagging_world integer_inputs 0 [false; true; false] [0%nat] 10
    = inr args /\
    map Qred (a_ty args) = [3; 15; 21].
Proof.
  split; [reflexivity|].
  eexists. split; [vm_compute; reflexivity|]. vm_compute. reflexivity.
Qed.

(** ** BaggingDelaySimulationWrapper: the utility of one candidate *)

Section BaggingFacts.

Context {B C R : Type}.
Context {base_strategy : BaseStrategy B} {classifier : Classifier C}
  {random_state : RandomState R}.










End BaggingFacts.

(** The pending mask, position by position. *)
Lemma nth_error_combine {A B : Type} (xs : list A) : forall (ys : list B) j,
  nth_error (combine xs ys) j
  = match nth_error xs j, nth_error ys j with
    | Some x, Some y => Some (x, y)
    | _, _ => None
    end.
Proof.
  induction xs as [|x xs IH]; intros [|y ys] [|j]; simpl; try reflexivity.
  - destruct (nth_error xs j); reflexivity.
  - apply IH.
Qed.

Lemma np_broadcast2_same_length {A B C : Type} (f : A -> B -> C)
  (xs : list A) (ys : list B) :
  List.length xs = List.length ys ->
  np_broadcast2 f xs ys
  = inr (map (fun p => f (fst p) (snd p)) (combine xs ys)).
Proof.
  intros Hl. unfold np_broadcast2. rewrite Hl, Nat.eqb_refl. reflexivity.
Qed.


Section BaggingCandidate.

Context {B C R : Type}.
Context {base_strategy : BaseStrategy B} {classifier : Classifier C}
  {random_state : RandomState R}.



End BaggingCandidate.

(** ** Configuration errors *)

Section ConfigurationErrors.

Context {B C R : Type}.
Context {base_strategy : BaseStrategy B} {classifier : Classifier C}
  {random_state : RandomState R}.
Variable super_validate_data : array_like -> result unit.

Lemma wrong_w_train_raises (cfg : config B C) :
  wrong_type_or_negative (w_train cfg) = true ->
  exists e, _validate_w_train cfg = inl e.
Proof.
  unfold _validate_w_train. destruct (w_train cfg) as [|b|z|q|s]; simpl;
    try discriminate; intros Hw.
  - destruct (Z.ltb_spec z 0) as [Hz|Hz]; [|discriminate].
    assert (E : Qle_bool 0 (inject_Z z) = false).
    { destruct (Qle_bool 0 (inject_Z z)) eqn:E; [|reflexivity].
      apply Qle_bool_iff in E. unfold Qle in E. simpl in E. lia. }
    rewrite E. eexists; reflexivity.
  - rewrite Hw. eexists; reflexivity.
  - eexists; reflexivity.
Qed.

Lemma wrong_delay_prior_raises (cfg : config B C) :
  wrong_type_or_negative (delay_prior cfg) = true ->
  exists e, _validate_delay_prior cfg = inl e.
Proof.
  unfold _validate_delay_prior.
  destruct (delay_prior cfg) as [|b|z|q|s]; simpl;
    try discriminate; intros Hw.
  - destruct (Z.ltb_spec z 0) as [Hz|Hz]; [|discriminate].
    assert (E : Qle_bool 0 (inject_Z z) = false).
    { destruct (Qle_bool 0 (inject_Z z)) eqn:E; [|reflexivity].
      apply Qle_bool_iff in E. unfold Qle in E. simpl in E. lia. }
    rewrite E. eexists; reflexivity.
  - rewrite Hw. eexists; reflexivity.
  - eexists; reflexivity.
Qed.

Lemma wrong_K_raises (cfg : config B C) :
  not_a_positive_integer (K cfg) = true ->
  exists e, _validate_K cfg = inl e.
Proof.
  unfold _validate_K. destruct (K cfg) as [|b|z|q|s]; simpl;
    try discriminate; intros Hk; try (eexists; reflexivity).
  - destruct b; [discriminate|]. eexists; reflexivity.
  - destruct (Z.leb_spec z 0) as [Hz|Hz]; [|discriminate].
    assert (E : Qle_bool (inject_Z z) 0 = true).
    { apply Qle_bool_iff. unfold Qle. simpl. lia. }
    rewrite E. eexists; reflexivity.
Qed.

(** Data validation changes nothing but the lazily created base
    strategy. *)
Lemma base_validate_data_state (cfg : config B C) (inp : inputs)
  (st : wstate B C R) :
  fst (base_validate_data super_validate_data cfg inp st)
  = fst (_validate_base_query_strategy cfg st).
Proof.
  unfold base_validate_data, bindM, liftR.
  destruct (_validate_base_query_strategy cfg st) as [s1 [e|[]]]; simpl;
    [reflexivity|].
  destruct (super_validate_data _) as [e|[]]; simpl; reflexivity.
Qed.

Lemma _validate_clf_base (cfg : config B C) (inp : inputs)
  (st : wstate B C R) :
  base_query_strategy_ (fst (_validate_clf cfg inp st))
  = base_query_strategy_ st.
Proof.
  unfold _validate_clf.
  destruct (clf cfg) as [c|].
  - destruct (is_classifier c); reflexivity.
  - unfold bindM, with_random_state.
    destruct (randint _ _) as [r' seed]. reflexivity.
Qed.

Lemma invalid_clf_raises (cfg : config B C) (inp : inputs)
  (st : wstate B C R) :
  invalid_classifier (clf cfg) = true ->
  _validate_clf cfg inp st = (st, inl TypeError).
Proof.
  unfold invalid_classifier, _validate_clf.
  destruct (clf cfg) as [c|]; [|discriminate].
  destruct (is_classifier c); [discriminate|]. reflexivity.
Qed.

(** A classifier the constructor accepts is installed and fitted: the
    check cannot fail. *)
Lemma valid_clf_installed (cfg : config B C) (inp : inputs)
  (st : wstate B C R) :
  invalid_classifier (clf cfg) = false ->
  snd (_validate_clf cfg inp st) = inr tt.
Proof.
  unfold invalid_classifier, _validate_clf.
  destruct (clf cfg) as [c|].
  - destruct (is_classifier c); [reflexivity | discriminate].
  - intros _. unfold bindM, with_random_state.
    destruct (randint _ _) as [r' seed]. reflexivity.
Qed.

Lemma accepted_delay_prior (cfg : config B C) :
  wrong_type_or_negative (delay_prior cfg) = false ->
  _validate_delay_prior cfg = inr tt.
Proof.
  unfold _validate_delay_prior.
  destruct (delay_prior cfg) as [|b|z|q|s]; simpl;
    try discriminate; try reflexivity; intros Hw.
  - destruct b; reflexivity.
  - destruct (Z.ltb_spec z 0) as [Hz|Hz]; [discriminate|].
    assert (E : Qle_bool 0 (inject_Z z) = true).
    { apply Qle_bool_iff. unfold Qle. simpl. lia. }
    rewrite E. reflexivity.
  - apply negb_false_iff in Hw. rewrite Hw. reflexivity.
Qed.

(** C7 (as amended). The array validation comes first: when it rejects,
    its error is the error of the query, whatever the configuration. When
    the arrays pass, a query on a wrapper whose [w_train] is set and of
    the wrong type or negative (forgetting), whose [clf] is not a
    classifier, whose [delay_prior] is set and of the wrong type or
    negative (bagging, fuzzy), or whose [K] is set and not a positive
    integer (bagging) raises the error of the check that rejects, before
    any candidate is processed: the wrapped base strategy and its budget
    manager are neither queried nor updated, the base strategy attribute
    is at most created. For the forgetting wrapper, and for a rejected
    classifier, nothing else changes either. *)
Theorem invalid_configuration_raises (cfg : config B C) (inp : inputs)
  (simulate : bool) (st : wstate B C R) :
  let s0 := fst (_validate_base_query_strategy cfg st) in
  let s1 := fst (_validate_clf cfg inp s0) in
  (forall e,
     snd (base_validate_data super_validate_data cfg inp st) = inl e ->
     forgetting_query super_validate_data cfg inp simulate st
       = (s0, inl e) /\
     bagging_query super_validate_data cfg inp simulate st = (s0, inl e) /\
     fuzzy_query super_validate_data cfg inp simulate st = (s0, inl e)) /\
  (snd (base_validate_data super_validate_data cfg inp st) = inr tt ->
   (wrong_type_or_negative (w_train cfg) = true ->
    exists e,
      _validate_w_train cfg = inl e /\
      forgetting_query super_validate_data cfg inp simulate st
        = (s0, inl e)) /\
   (invalid_classifier (clf cfg) = true ->
    bagging_query super_validate_data cfg inp simulate st
      = (s0, inl TypeError) /\
    fuzzy_query super_validate_data cfg inp simulate st
      = (s0, inl TypeError)) /\
   (invalid_classifier (clf cfg) = false ->
    base_query_strategy_ s1 = base_query_strategy_ s0 /\
    (wrong_type_or_negative (delay_prior cfg) = true ->
     exists e,
       _validate_delay_prior cfg = inl e /\
       bagging_query super_validate_data cfg inp simulate st
         = (s1, inl e) /\
       fuzzy_query super_validate_data cfg inp simulate st
         = (s1, inl e)) /\
    (wrong_type_or_negative (delay_prior cfg) = false ->
     not_a_positive_integer (K cfg) = true ->
     exists e,
       _validate_K cfg = inl e /\
       bagging_query super_validate_data cfg inp simulate st
         = (s1, inl e)))).
Proof.
  intros s0 s1.
  pose proof (base_validate_data_state cfg inp st) as Hst. fold s0 in Hst.
  destruct (base_validate_data super_validate_data cfg inp st)
    as [s [e0|[]]] eqn:E1; cbn [fst snd] in *; subst s; split.
  - intros e He. injection He as <-.
    unfold forgetting_query, forgetting_validate_data, bagging_query,
      bagging_validate_data, fuzzy_query, fuzzy_validate_data.
    repeat split; do 2 apply bindM_inl; exact E1.
  - discriminate.
  - discriminate.
  - intros _. split; [|split].
    + intros Hw. destruct (wrong_w_train_raises cfg Hw) as [e He].
      exists e. split; [exact He|].
      unfold forgetting_query, forgetting_validate_data.
      apply bindM_inl. rewrite (bindM_step _ _ _ _ _ E1).
      unfold liftR. rewrite He. reflexivity.
    + intros Hc. pose proof (invalid_clf_raises cfg inp s0 Hc) as E2.
      unfold bagging_query, bagging_validate_data, fuzzy_query,
        fuzzy_validate_data.
      split; apply bindM_inl; rewrite (bindM_step _ _ _ _ _ E1);
        apply bindM_inl; exact E2.
    + intros Hc. pose proof (valid_clf_installed cfg inp s0 Hc) as Hok.
      fold s1. split; [apply _validate_clf_base|].
      assert (E2 : _validate_clf cfg inp s0 = (s1, inr tt)).
      { unfold s1. destruct (_validate_clf cfg inp s0) as [s r].
        simpl in *. subst r. reflexivity. }
      split.
      * intros Hp. destruct (wrong_delay_prior_raises cfg Hp) as [e He].
        exists e. split; [exact He|].
        unfold bagging_query, bagging_validate_data, fuzzy_query,
          fuzzy_validate_data.
        split; apply bindM_inl; rewrite (bindM_step _ _ _ _ _ E1);
          rewrite (bindM_step _ _ _ _ _ E2).
        -- apply bindM_inl. unfold liftR. rewrite He. reflexivity.
        -- unfold liftR. rewrite He. reflexivity.
      * intros Hp HK. destruct (wrong_K_raises cfg HK) as [e He].
        exists e. split; [exact He|].
        unfold bagging_query, bagging_validate_data.
        apply bindM_inl. rewrite (bindM_step _ _ _ _ _ E1).
        rewrite (bindM_step _ _ _ _ _ E2).
        unfold bindM, liftR. rewrite (accepted_delay_prior cfg Hp), He.
        reflexivity.
Qed.

End ConfigurationErrors.

(** A bagging wrapper constructed with [K = 0] on the running stream: the
    arrays pass, the classifier is installed, and the query raises the
    [ValueError] of [_validate_K] with the budget counters as before. *)
Lemma invalid_configuration_raises_witness :
  exists st',
    bagging_query demo_super_validate_data zero_K_config stream_inputs true
                  started_state = (st', inl ValueError) /\
    base_query_strategy_ st' = base_query_strategy_ started_state.
Proof.
  destruct (invalid_configuration_raises demo_super_validate_data
              zero_K_config stream_inputs true started_state)
    as [_ Hvalid].
  destruct Hvalid as [_ [_ Hclf]]; [reflexivity|].
  destruct Hclf as [Hbase [_ HK]]; [reflexivity|].
  destruct HK as [e [He Hq]]; [reflexivity | reflexivity|].
  vm_compute in He. injection He as <-.
  eexists. split; [exact Hq | exact Hbase].
Defined.

(** C7, counterexample. The same call: [K = 0] is rejected with a
    [ValueError], but only after [_validate_clf] has drawn a new seed,
    replaced [clf_] and fitted it on the data of this call. *)
Lemma bagging_zero_K_partially_applied :
  not_a_positive_integer (K zero_K_config) = true /\
  exists st',
    bagging_query demo_super_validate_data zero_K_config stream_inputs true
                  started_state = (st', inl ValueError) /\
    clf_ st' = Some (mk_clf (ParzenWindow 2)
                            (Some (mk_train (X stream_inputs)
                                            (y stream_inputs) None))) /\
    random_state_ st' = 3%nat /\
    clf_ st' <> clf_ started_state /\
    random_state_ st' <> random_state_ started_state.
Proof.
  split; [reflexivity|].
  eexists. split; [vm_compute; reflexivity|].
  split; [reflexivity|]. split; [reflexivity|].
  split; simpl; intros Hc; discriminate.
Qed.

(** ** ForgettingWrapper: the training window *)

Section ForgettingWindow.

Context {B C R : Type}.
Context {base_strategy : BaseStrategy B} {classifier : Classifier C}
  {random_state : RandomState R}.
Variable super_validate_data : array_like -> result unit.




End ForgettingWindow.


(** ** BaggingDelaySimulationWrapper: the utilities of the candidates *)

Section BaggingUtilities.

Context {B C R : Type}.
Context {base_strategy : BaseStrategy B} {classifier : Classifier C}
  {random_state : RandomState R}.
Variable super_validate_data : array_like -> result unit.

Hypothesis one_row_per_instance :
  forall est data Xs,
    List.length (predict_freq est data Xs) = List.length Xs.





End BaggingUtilities.



(** ** The prior of the class probabilities *)

(** C9. [delay_prior = 0]: the validator accepts it, although it is
    documented to check that the prior is greater than 0. On a stream on
    which no label has been observed yet, the pending instance has
    frequency 0 for both classes, the row total is 0 and the division is
    [0/0]: [get_class_probabilities] returns a row of nan instead of the
    prior-only distribution. *)
Theorem zero_delay_prior_gives_nan :
  _validate_delay_prior zero_prior_config = inr tt /\
  snd (bagging_validate_data demo_super_validate_data zero_prior_config
                             unlabelled_inputs started_state) = inr tt /\
  pending_mask unlabelled_inputs 10 15 = inr [false; true; false] /\
  snd (get_class_probabilities zero_prior_config [[2]]
         (X unlabelled_inputs) (y unlabelled_inputs)
         (sample_weight unlabelled_inputs)
         (fst (bagging_validate_data demo_super_validate_data
                 zero_prior_config unlabelled_inputs started_state)))
  = inr [[NaN; NaN]] /\
  ~ Forall2
      (fun row probs => exists qs, probs = map Fin qs /\ np_sum qs == 1)
      [[0; 0]] [[NaN; NaN]].
Proof.
  split; [reflexivity|]. split; [reflexivity|].
  split; [vm_compute; reflexivity|]. split; [vm_compute; reflexivity|].
  intros H. inversion H as [|row probs l l' [qs [H1 _]] _]; subst.
  destruct qs as [|q0 qs]; discriminate.
Qed.

(** ** The simulate flag *)

(** C1. A query with [simulate=True] that changes persisted attributes.
    The wrapper ran before ([started_state]: classifier seeded with 0 and
    fitted on the earlier data, two draws consumed). The simulated query on
    the current stream leaves the base strategy and its budget counters
    alone, but [_validate_clf] draws a new seed and replaces [clf_] by a
    classifier fitted on the data of this call, and the label simulation
    consumes further draws. The fuzzy wrapper shares [_validate_clf] and
    behaves alike. *)
Theorem simulate_query_changes_state :
  (exists st',
     bagging_query demo_super_validate_data bagging_config stream_inputs
                   true started_state = (st', inr ([0%nat], [3 # 2])) /\
     base_query_strategy_ st' = base_query_strategy_ started_state /\
     clf_ st' = Some (mk_clf (ParzenWindow 2)
                             (Some (mk_train (X stream_inputs)
                                             (y stream_inputs) None))) /\
     random_state_ st' = 5%nat /\
     st' <> started_state) /\
  (exists st' r,
     fuzzy_query demo_super_validate_data fuzzy_config stream_inputs
                 true started_state = (st', inr r) /\
     base_query_strategy_ st' = base_query_strategy_ started_state /\
     clf_ st' <> clf_ started_state /\
     st' <> started_state).
Proof.
  split.
  - eexists. split; [vm_compute; reflexivity|].
    repeat split. intros Hc. discriminate.
  - do 2 eexists. split; [vm_compute; reflexivity|].
    repeat split; intros Hc; discriminate.
Qed.

(** A committed query is not a simulated query followed by [update]. On a
    stream without pending labels the bagging wrapper passes
    [simulate=False] on to the base strategy for every candidate and then
    calls [update] as well, so the candidate is counted twice. *)
Lemma bagging_commit_counts_twice :
  let committed :=
    fst (bagging_query demo_super_validate_data bagging_config idle_inputs
                       false started_state) in
  let simulated_then_updated :=
    fst (bindM (bagging_query demo_super_validate_data bagging_config
                              idle_inputs true)
               (fun r => update bagging_config (X_cand idle_inputs) [true]
                                (Some (snd r)))
               started_state) in
  snd (bagging_query demo_super_validate_data bagging_config idle_inputs
                     true started_state) = inr ([0%nat], [1]) /\
  base_query_strategy_ committed = Some (FixedBudget.mk (f64_of_Q (1 # 2)) 6 3) /\
  base_query_strategy_ simulated_then_updated
  = Some (FixedBudget.mk (f64_of_Q (1 # 2)) 5 2).
Proof. vm_compute. repeat split. Qed.

(** The part of C1 that holds: the forgetting wrapper has no attribute of
    its own to lose. Once its base strategy exists, a simulated query
    leaves the wrapper as it was, provided the base strategy itself honours
    [simulate=True]. *)
Section ForgettingSimulate.

Context {B C R : Type}.
Context {base_strategy : BaseStrategy B} {classifier : Classifier C}
  {random_state : RandomState R}.
Variable super_validate_data : array_like -> result unit.

Hypothesis base_honours_simulate :
  forall args b, fst (base_query args true b) = b.

Lemma bindM_preserves {S A A' : Type} (m : M S A) (k : A -> M S A') (s : S) :
  fst (m s) = s -> (forall a, fst (k a s) = s) -> fst (bindM m k s) = s.
Proof.
  unfold bindM. intros Hm Hk. destruct (m s) as [s1 [e|a]]; simpl in Hm;
    subst s1; [reflexivity | apply Hk].
Qed.

Lemma forgetting_loop_preserves (cfg : config B C) (inp : inputs)
  (st : wstate B C R) (b : B) :
  base_query_strategy_ st = Some b ->
  forall cands i sampled_indices utilities,
  fst (forgetting_loop cfg inp true i cands sampled_indices utilities st)
  = st.
Proof.
  intros Hb. induction cands as [|[[tXc tyc] Xc] rest IH];
    intros i sampled_indices utilities; simpl; [reflexivity|].
  apply bindM_preserves; [reflexivity|]. intros args.
  apply bindM_preserves.
  - unfold with_base. rewrite Hb.
    pose proof (base_honours_simulate args b) as Hs.
    destruct (base_query args true b) as [b' r]. simpl in Hs. subst b'.
    simpl. unfold set_base. rewrite <- Hb. destruct st; reflexivity.
  - intros [sample utility]. apply IH.
Qed.

(** A simulated query of the forgetting wrapper leaves the wrapper as it
    was, whether it returns or raises, once the wrapper holds its base
    strategy and that strategy honours [simulate=True]. *)
Lemma forgetting_simulate_preserves_state (cfg : config B C) (inp : inputs)
  (st : wstate B C R) (b : B) :
  base_query_strategy_ st = Some b ->
  fst (forgetting_query super_validate_data cfg inp true st) = st.
Proof.
  intros Hb. unfold forgetting_query.
  apply bindM_preserves.
  - unfold forgetting_validate_data. apply bindM_preserves.
    + rewrite base_validate_data_state.
      unfold _validate_base_query_strategy, bindM. rewrite Hb.
      cbn beta iota. rewrite Hb.
      destruct (is_stream_strategy b); reflexivity.
    + intros []. reflexivity.
  - intros []. eapply forgetting_loop_preserves. exact Hb.
Qed.

End ForgettingSimulate.

(* ================================================================== *)
(** * Further properties of the embedded code *)
(* ================================================================== *)

(** ** FixedBudget: chunking and the [budget_left] array *)

Section FixedBudgetMore.
Import FixedBudget.

Lemma bindM_assoc {S A B C : Type} (m : M S A) (f : A -> M S B)
  (g : B -> M S C) (s : S) :
  bindM (bindM m f) g s = bindM m (fun a => bindM (f a) g) s.
Proof.
  unfold bindM. destruct (m s) as [s1 [e|a]]; reflexivity.
Qed.

Lemma loop_app (us1 us2 : list float64) : forall st,
  loop (us1 ++ us2) st
  = bindM (loop us1) (fun '(bl1, s1) =>
    bindM (loop us2) (fun '(bl2, s2) =>
    ret (bl1 ++ bl2, s1 ++ s2))) st.
Proof.
  induction us1 as [|u rest IH]; intros st; cbn [loop app].
  - unfold bindM, ret. simpl.
    destruct (loop us2 st) as [st2 [e|[bl2 s2]]]; reflexivity.
  - rewrite bindM_assoc.
    destruct (step u st) as [st1 [e|[bl s]]] eqn:Es.
    + rewrite !(bindM_inl _ _ _ _ _ Es). reflexivity.
    + rewrite !(bindM_step _ _ _ _ _ Es). cbn beta iota.
      rewrite bindM_assoc.
      destruct (loop rest st1) as [st2 [e|[bls ss]]] eqn:Er.
      * rewrite (bindM_inl _ _ _ _ _ Er).
        apply bindM_inl. rewrite IH. apply bindM_inl. exact Er.
      * rewrite (bindM_step _ _ _ _ _ Er). cbn beta iota.
        unfold bindM at 1. rewrite IH.
        rewrite (bindM_step _ _ _ _ _ Er). cbn beta iota.
        unfold bindM, ret.
        destruct (loop us2 st2) as [st3 [e|[bl3 s3]]]; reflexivity.
Qed.

Lemma np_where_from_app (m1 m2 : list bool) : forall o,
  np_where_from o (m1 ++ m2)
  = np_where_from o m1 ++ np_where_from (o + List.length m1) m2.
Proof.
  induction m1 as [|b m1 IH]; intros o; simpl.
  - rewrite Nat.add_0_r. reflexivity.
  - rewrite IH. replace (S o + List.length m1)%nat
      with (o + S (List.length m1))%nat by lia.
    destruct b; reflexivity.
Qed.

Lemma np_where_from_shift (m : list bool) : forall o,
  np_where_from o m = map (fun i => (o + i)%nat) (np_where m).
Proof.
  unfold np_where.
  assert (G : forall o k, np_where_from (o + k) m
              = map (fun i => (o + i)%nat) (np_where_from k m)).
  { induction m as [|b m IH]; intros o k; simpl; [reflexivity|].
    replace (S (o + k)) with (o + S k)%nat by lia.
    rewrite IH. destruct b; reflexivity. }
  intros o. specialize (G o 0%nat). rewrite Nat.add_0_r in G. exact G.
Qed.

(** Committing a stream in two chunks is the same as committing it in one:
    the counters end up equal and the indices of the second chunk are those
    of the single call, shifted by the length of the first chunk. An
    exception raised in either chunk is the exception of the single call,
    with the counters where it left them. *)
Theorem FixedBudget_sample_chunks (us1 us2 : list float64) (st : state) :
  sample (us1 ++ us2) false st
  = bindM (sample us1 false) (fun idx1 =>
    bindM (sample us2 false) (fun idx2 =>
    ret (idx1 ++ map (fun i => (List.length us1 + i)%nat) idx2))) st.
Proof.
  assert (Hs : forall us s0,
            sample us false s0
            = match loop us s0 with
              | (s1, inl e) => (s1, inl e)
              | (s1, inr (_, ss)) => (s1, inr (np_where ss))
              end).
  { intros us s0. unfold sample, sample_full, bindM, ret.
    destruct (loop us s0) as [s1 [e|[bls ss]]]; reflexivity. }
  rewrite Hs, loop_app. unfold bindM at 1 3. rewrite Hs.
  destruct (loop us1 st) as [st1 [e|[bl1 s1]]] eqn:E1; [reflexivity|].
  unfold bindM. rewrite Hs. unfold ret.
  destruct (loop us2 st1) as [st2 [e|[bl2 s2]]] eqn:E2; [reflexivity|].
  unfold np_where. rewrite np_where_from_app. simpl.
  destruct (loop_returns _ _ _ _ _ E1) as [_ [_ [Hl _]]].
  rewrite Hl, (np_where_from_shift s2 (List.length us1)). reflexivity.
Qed.

(** With [return_budget_left=True], a call that returns reports one flag
    per utility, and an instance is sampled exactly when its flag says
    budget was left and its utility is at least [1 - budget] (the
    difference rounded as for any float). Both arrays are the same with
    and without [simulate]. *)
Theorem FixedBudget_budget_left (utilities : list float64) (simulate : bool)
  (st st' : state) (idx : list nat) (budget_left : list bool) :
  sample_full utilities simulate st = (st', inr (idx, budget_left)) ->
  List.length budget_left = List.length utilities /\
  snd (sample_full utilities (negb simulate) st) = inr (idx, budget_left) /\
  forall i,
    In i idx <->
    nth_error budget_left i = Some true /\
    exists u, nth_error utilities i = Some u /\
              f64_leb (f64_sub f64_one (budget st)) u = true.
Proof.
  unfold sample_full.
  destruct (loop utilities st) as [st1 [e|[bls ss]]] eqn:E;
    [discriminate|].
  intros Hs. inversion Hs; subst; clear Hs.
  destruct (loop_returns _ _ _ _ _ E) as [_ [Hlen [_ Hn]]].
  split; [exact Hlen|]. split; [reflexivity|].
  intros i. unfold np_where. rewrite np_where_from_In. simpl. split.
  - intros [k [-> Hk]]. rewrite Hn in Hk.
    destruct (nth_error budget_left k) as [bl|]; [|discriminate].
    destruct (nth_error utilities k) as [u|]; [|discriminate].
    injection Hk as Hk. apply andb_true_iff in Hk. destruct Hk as [-> Hu].
    split; [reflexivity|]. exists u. split; [reflexivity | exact Hu].
  - intros [Hbl [u [Hu Hle]]]. exists i. split; [reflexivity|].
    rewrite Hn, Hbl, Hu. f_equal. simpl. exact Hle.
Qed.

End FixedBudgetMore.

(** Budget 0.5 after four instances of which one was sampled: budget is
    left for the fifth instance, whose utility 0.2 is too small, and again
    for the sixth, which is sampled. *)
Lemma FixedBudget_budget_left_witness :
  exists st',
    FixedBudget.sample_full [f64_of_Q (2 # 10); f64_of_Q (9 # 10)] true
      (FixedBudget.mk (f64_of_Q (1 # 2)) 4 1)
    = (st', inr ([1%nat], [true; true])) /\
    snd (FixedBudget.sample_full [f64_of_Q (2 # 10); f64_of_Q (9 # 10)]
           false (FixedBudget.mk (f64_of_Q (1 # 2)) 4 1))
    = inr ([1%nat], [true; true]).
Proof.
  eexists. split; [vm_compute; reflexivity|].
  apply (FixedBudget_budget_left
           [f64_of_Q (2 # 10); f64_of_Q (9 # 10)] true
           (FixedBudget.mk (f64_of_Q (1 # 2)) 4 1)
           (FixedBudget.mk (f64_of_Q (1 # 2)) 4 1) [1%nat] [true; true]).
  vm_compute. reflexivity.
Defined.

(** ** BADGE: the selection probabilities *)

Lemma np_sum_nonneg (l : list Q) :
  Forall (fun q => 0 <= q) l -> 0 <= np_sum l.
Proof.
  induction 1 as [|x l Hx _ IH].
  - unfold np_sum; simpl; lra.
  - rewrite np_sum_cons. lra.
Qed.

Lemma np_sum_nonneg_zero (l : list Q) :
  Forall (fun q => 0 <= q) l -> np_sum l == 0 -> Forall (fun q => q == 0) l.
Proof.
  induction 1 as [|x l Hx Hl IH]; intros Hs; constructor.
  - rewrite np_sum_cons in Hs. pose proof (np_sum_nonneg l Hl). lra.
  - apply IH. rewrite np_sum_cons in Hs.
    pose proof (np_sum_nonneg l Hl). lra.
Qed.

Lemma squares_nonneg (D : list Q) :
  Forall (fun q => 0 <= q) (map (fun d => d * d) D).
Proof.
  apply Forall_forall. intros q Hq. apply in_map_iff in Hq.
  destruct Hq as [d [<- _]]. nra.
Qed.

Section DProbability.

Variable dist : list Q -> list Q -> Q.

(** The shape of every successful call of [_d_probability]: either the
    randomized answer, or the normalised squares of some vector [D]. *)
Lemma _d_probability_inr (g_x : list (list Q)) (query_indicies : list nat)
  (d_latest : option (list Q)) (p : list Q) (flag : bool) :
  Badge._d_probability dist g_x query_indicies d_latest = inr (p, flag) ->
  (flag = true /\ p = np_ones (List.length g_x)) \/
  (flag = false /\ query_indicies <> [] /\
   exists centers D0 D,
     np_take g_x query_indicies = inr centers /\
     Badge.pairwise_min dist g_x centers = inr D0 /\
     match d_latest with
     | Some dl => np_broadcast2 Qmin dl D0
     | None => inr D0
     end = inr D /\
     ~ np_sum (map (fun d => d * d) D) == 0 /\
     p = map (fun d => d / np_sum (map (fun d => d * d) D))
             (map (fun d => d * d) D)).
Proof.
  unfold Badge._d_probability.
  destruct query_indicies as [|i rest]; cbn [List.length Nat.eqb].
  - intros Hp. inversion Hp; subst. left. split; reflexivity.
  - intros Hp.
    apply bindE_inr in Hp. destruct Hp as [centers [Hc Hp]].
    apply bindE_inr in Hp. destruct Hp as [D0 [HD0 Hp]].
    apply bindE_inr in Hp. destruct Hp as [D [HD Hp]].
    destruct (Qeq_bool (np_sum (map (fun d => d * d) D)) 0) eqn:E.
    + inversion Hp; subst. left. split; reflexivity.
    + inversion Hp; subst. right. split; [reflexivity|].
      split; [discriminate|].
      exists centers, D0, D. repeat split; try assumption.
      intros Hz. apply Qeq_bool_iff in Hz. congruence.
Qed.

End DProbability.

(** ** BADGE: the candidate chosen last, and the gradient embedding *)

Lemma pairwise_min_single (dist : list Q -> list Q -> Q) (xc : list Q) :
  forall rows,
  Badge.pairwise_min dist rows [xc] = inr (map (fun x => dist x xc) rows).
Proof.
  induction rows as [|x rows IH]; simpl; [reflexivity|].
  rewrite IH. reflexivity.
Qed.

Lemma d_probability_single (dist : list Q -> list Q -> Q)
  (g_x : list (list Q)) (c : nat) (xc : list Q) (v : list Q) :
  nth_error g_x c = Some xc ->
  List.length v = List.length g_x ->
  Badge._d_probability dist g_x [c] (Some v)
  = let D := map (fun p => Qmin (fst p) (snd p))
                 (combine v (map (fun x => dist x xc) g_x)) in
    let D2 := map (fun d => d * d) D in
    if Qeq_bool (np_sum D2) 0
    then inr (np_ones (List.length g_x), true)
    else inr (map (fun d => d / np_sum D2) D2, false).
Proof.
  intros Hc Hv. unfold Badge._d_probability. cbn [List.length Nat.eqb].
  cbn [np_take]. unfold py_index. rewrite Hc. cbn [bindE].
  rewrite pairwise_min_single. cbn [bindE].
  rewrite np_broadcast2_same_length by (rewrite length_map; exact Hv).
  reflexivity.
Qed.

(** In a weighted round the candidate chosen in the previous round has
    selection probability zero, whatever the other distances are, as long
    as a point is at distance zero from itself and the cached vector has
    no negative entry at that candidate. *)
Theorem d_probability_excludes_last_choice
  (dist : list Q -> list Q -> Q) (g_x : list (list Q)) (c : nat)
  (d_latest p : list Q) (vc : Q) :
  (forall x, dist x x == 0) ->
  List.length d_latest = List.length g_x ->
  nth_error d_latest c = Some vc -> 0 <= vc ->
  Badge._d_probability dist g_x [c] (Some d_latest) = inr (p, false) ->
  exists q, nth_error p c = Some q /\ q == 0.
Proof.
  intros Hid Hlen Hvc Hnn Hp.
  assert (Hc : (c < List.length g_x)%nat).
  { rewrite <- Hlen. apply nth_error_Some. congruence. }
  destruct (nth_error g_x c) as [xc|] eqn:Exc;
    [|apply nth_error_None in Exc; lia].
  rewrite (d_probability_single dist g_x c xc d_latest Exc Hlen) in Hp.
  cbv zeta in Hp.
  set (D := map (fun p => Qmin (fst p) (snd p))
                (combine d_latest (map (fun x => dist x xc) g_x))) in *.
  destruct (Qeq_bool (np_sum (map (fun d => d * d) D)) 0) eqn:E;
    [discriminate|].
  injection Hp as <-.
  assert (HD : nth_error D c = Some (Qmin vc (dist xc xc))).
  { unfold D. rewrite nth_error_map, nth_error_combine, nth_error_map.
    rewrite Hvc, Exc. reflexivity. }
  exists (Qmin vc (dist xc xc) * Qmin vc (dist xc xc)
          / np_sum (map (fun d => d * d) D)).
  split.
  - rewrite !nth_error_map, HD. reflexivity.
  - assert (Hmin : Qmin vc (dist xc xc) == 0).
    { destruct (Q.min_spec vc (dist xc xc)) as [[Hlt Hm]|[Hle Hm]];
        rewrite Hm; pose proof (Hid xc); lra. }
    rewrite Hmin. unfold Qdiv. ring.
Qed.

Lemma d_probability_excludes_last_choice_witness :
  exists p q,
    Badge._d_probability Badge.euclidean_1d [[0]; [3]; [10]] [1%nat]
                         (Some [0; 1 # 2; 1 # 2]) = inr (p, false) /\
    nth_error p 1 = Some q /\ q == 0.
Proof.
  destruct (Badge._d_probability Badge.euclidean_1d [[0]; [3]; [10]]
              [1%nat] (Some [0; 1 # 2; 1 # 2])) as [e|[p flag]] eqn:E;
    [vm_compute in E; discriminate|].
  assert (Hf : flag = false) by (vm_compute in E; congruence).
  subst flag.
  destruct (d_probability_excludes_last_choice Badge.euclidean_1d
              [[0]; [3]; [10]] 1 [0; 1 # 2; 1 # 2] p (1 # 2))
    as [q [Hq Hq0]].
  - intros x. unfold Badge.euclidean_1d.
    assert (Hx : nth 0 x 0 - nth 0 x 0 == 0) by ring.
    rewrite Hx. reflexivity.
  - reflexivity.
  - reflexivity.
  - vm_compute. discriminate.
  - exact E.
  - exists p, q. repeat split; assumption.
Defined.

Lemma row_maxes_inr (probas : list (list Q)) : forall p_max,
  Badge.row_maxes probas = inr p_max ->
  Forall2 (fun row m => Badge.row_max row = inr m) probas p_max.
Proof.
  induction probas as [|row probas IH]; intros p_max Hp; simpl in Hp.
  - injection Hp as <-. constructor.
  - apply bindE_inr in Hp. destruct Hp as [m [Hm Hp]].
    apply bindE_inr in Hp. destruct Hp as [ms [Hms Hp]].
    injection Hp as <-. constructor; [exact Hm | apply IH; exact Hms].
Qed.

(** The gradient embedding needs a non-empty probability row for every
    candidate. With one probability row per embedding row it has the
    shape of the embedding features, and a candidate whose most likely
    class has probability 1 gets the zero vector. With differing numbers
    of rows it only exists when numpy can broadcast, that is, when one of
    the two has a single row. *)
Theorem gradient_embedding_shape (probas X_emb g_x : list (list Q)) :
  Badge.gradient_embedding probas X_emb = inr g_x ->
  Forall (fun row => row <> []) probas /\
  (List.length probas = List.length X_emb ->
   Forall2 (fun x g => List.length g = List.length x) X_emb g_x /\
   forall i row m g,
     nth_error probas i = Some row -> Badge.row_max row = inr m ->
     m == 1 -> nth_error g_x i = Some g ->
     Forall (fun v => v == 0) g) /\
  (List.length probas <> List.length X_emb ->
   List.length probas = 1%nat \/ List.length X_emb = 1%nat).
Proof.
  unfold Badge.gradient_embedding. intros Hg.
  apply bindE_inr in Hg. destruct Hg as [p_max [Hp Hg]].
  apply row_maxes_inr in Hp.
  assert (Hlp : List.length probas = List.length p_max)
    by (apply (Forall2_length Hp)).
  split; [|split].
  - clear Hg Hlp. induction Hp as [|row m probas p_max Hm _ IH];
      constructor; [|exact IH].
    intros ->. discriminate.
  - intros Hlen.
    rewrite np_broadcast2_same_length in Hg by congruence.
    injection Hg as <-. split.
    + clear Hlp. revert X_emb Hlen.
      induction Hp as [|row m probas p_max Hm _ IH]; intros [|x X_emb] Hlen;
        simpl in Hlen; try discriminate; simpl; constructor.
      * apply length_map.
      * apply IH. lia.
    + intros i row m g Hrow Hm H1 Hgi.
      rewrite nth_error_map, nth_error_combine in Hgi.
      destruct (nth_error p_max i) as [m'|] eqn:Em; [|discriminate].
      destruct (nth_error X_emb i) as [x|]; [|discriminate].
      injection Hgi as <-. simpl.
      assert (Hmm : m' = m).
      { clear - Hp Hrow Hm Em. revert i Hrow Em.
        induction Hp as [|row' m0 probas p_max Hm0 _ IH]; intros [|i] Hr He;
          simpl in Hr, He; try discriminate.
        - injection Hr as ->. injection He as ->. congruence.
        - eapply IH; eassumption. }
      subst m'. apply Forall_forall. intros v Hv. apply in_map_iff in Hv.
      destruct Hv as [w [<- _]]. rewrite H1. ring.
  - intros Hne. unfold np_broadcast2 in Hg.
    destruct (Nat.eqb_spec (List.length p_max) (List.length X_emb)) as [E|_];
      [congruence|].
    rewrite Hlp.
    destruct p_max as [|m [|m2 p_max]];
      destruct X_emb as [|x [|x2 X_emb]]; try discriminate;
      simpl; auto.
Qed.

Lemma gradient_embedding_shape_witness :
  exists g_x,
    Badge.gradient_embedding [[1]; [1 # 4; 3 # 4]] [[5]; [7]] = inr g_x /\
    Forall2 (fun x g : list Q => List.length g = List.length x)
            [[5]; [7]] g_x /\
    nth_error g_x 0 = Some [(1 - 1) * 5].
Proof.
  destruct (Badge.gradient_embedding [[1]; [1 # 4; 3 # 4]] [[5]; [7]])
    as [e|g_x] eqn:E; [vm_compute in E; discriminate|].
  exists g_x. split; [reflexivity|].
  destruct (gradient_embedding_shape _ _ _ E) as [_ [Hsame _]].
  destruct (Hsame eq_refl) as [Hshape _].
  split; [exact Hshape|].
  cbv in E. injection E as <-. reflexivity.
Defined.

(** ** Delay wrappers: the base strategy attribute and [update] *)

Section BaseStrategyAttribute.

Context {B C R : Type}.
Context {base_strategy : BaseStrategy B} {classifier : Classifier C}
  {random_state : RandomState R}.
Variable super_validate_data : array_like -> result unit.

(** The base strategy a wrapper works with: the one it already holds, or
    else a clone of the constructor argument, or else a new [Split]. A
    constructor argument that cannot be cloned makes the validation
    raise, with nothing changed. *)
Lemma validated_base (cfg : config B C) (st : wstate B C R) :
  (exists b,
     fst (_validate_base_query_strategy cfg st) = set_base (Some b) st /\
     match base_query_strategy_ st, base_query_strategy cfg with
     | Some b0, _ => b = b0
     | None, Some b1 => clone b1 = inr b
     | None, None => b = Split
     end /\
     snd (_validate_base_query_strategy cfg st)
     = if is_stream_strategy b then inr tt else inl TypeError) \/
  (exists b1 e,
     base_query_strategy_ st = None /\
     base_query_strategy cfg = Some b1 /\
     clone b1 = inl e /\
     _validate_base_query_strategy cfg st = (st, inl e)).
Proof.
  unfold _validate_base_query_strategy, bindM.
  destruct (base_query_strategy_ st) as [b0|] eqn:E0.
  - left. exists b0. rewrite E0.
    destruct (is_stream_strategy b0); simpl; repeat split;
      unfold set_base; rewrite <- E0; destruct st; reflexivity.
  - destruct (base_query_strategy cfg) as [b1|]; simpl.
    + destruct (clone b1) as [e|b] eqn:Ec.
      * right. exists b1, e. repeat split. exact Ec.
      * left. exists b. simpl.
        destruct (is_stream_strategy b); repeat split.
    + left. exists Split. destruct (is_stream_strategy Split); repeat split.
Qed.

(** A base strategy that is not a stream strategy is rejected with a
    [TypeError] by [query] of all three wrappers and by [update], before
    any array is looked at; the only trace is the attribute itself. *)
Theorem invalid_base_strategy_raises (cfg : config B C) (inp : inputs)
  (simulate : bool) (st : wstate B C R) (b : B)
  (sampled : list bool) (kwargs : option (list Q)) :
  base_query_strategy_ (fst (_validate_base_query_strategy cfg st))
    = Some b ->
  is_stream_strategy b = false ->
  let st' := fst (_validate_base_query_strategy cfg st) in
  forgetting_query super_validate_data cfg inp simulate st
    = (st', inl TypeError) /\
  bagging_query super_validate_data cfg inp simulate st
    = (st', inl TypeError) /\
  fuzzy_query super_validate_data cfg inp simulate st
    = (st', inl TypeError) /\
  update cfg (X_cand inp) sampled kwargs st = (st', inl TypeError).
Proof.
  intros Hb Hbad st'.
  assert (Hv : _validate_base_query_strategy cfg st = (st', inl TypeError)).
  { destruct (validated_base cfg st)
      as [[b0 [H1 [_ H3]]] | [b1 [e [Hn [_ [_ Hr]]]]]].
    - unfold st' in *. rewrite H1 in Hb. simpl in Hb. injection Hb as ->.
      rewrite Hbad in H3.
      destruct (_validate_base_query_strategy cfg st) as [s r].
      simpl in *. subst. reflexivity.
    - rewrite Hr in Hb. simpl in Hb. congruence. }
  assert (Hd : base_validate_data super_validate_data cfg inp st
               = (st', inl TypeError)).
  { unfold base_validate_data. apply bindM_inl. exact Hv. }
  repeat split.
  - unfold forgetting_query, forgetting_validate_data.
    do 2 apply bindM_inl. exact Hd.
  - unfold bagging_query, bagging_validate_data.
    do 2 apply bindM_inl. exact Hd.
  - unfold fuzzy_query, fuzzy_validate_data.
    do 2 apply bindM_inl. exact Hd.
  - unfold update. apply bindM_inl. exact Hv.
Qed.

(** [update] commits the decisions into the base strategy and touches
    nothing else: afterwards the base strategy is [base_update] of the
    validated one (the one the wrapper holds, else a clone of the
    constructor argument, else a new [Split]), [clf_] and [random_state_]
    are as before. *)
Theorem update_commits_to_base_only (cfg : config B C)
  (X_cand0 : list (list Q)) (sampled : list bool)
  (kwargs : option (list Q)) (st st' : wstate B C R) :
  update cfg X_cand0 sampled kwargs st = (st', inr tt) ->
  exists b,
    match base_query_strategy_ st, base_query_strategy cfg with
    | Some b0, _ => b = b0
    | None, Some b1 => clone b1 = inr b
    | None, None => b = Split
    end /\
    is_stream_strategy b = true /\
    st' = mk_wstate (Some (base_update X_cand0 sampled kwargs b))
                    (clf_ st) (random_state_ st).
Proof.
  intros Hu. unfold update in Hu.
  apply bindM_inr in Hu. destruct Hu as [s1 [[] [Hv Hu]]].
  destruct (validated_base cfg st)
    as [[b [H1 [H2 H3]]] | [b1 [e [_ [_ [_ Hr]]]]]];
    [|rewrite Hr in Hv; discriminate].
  rewrite Hv in H1, H3. simpl in H1, H3. subst s1.
  exists b. split; [exact H2|].
  split; [destruct (is_stream_strategy b); [reflexivity|discriminate]|].
  unfold with_base in Hu. simpl in Hu. inversion Hu. reflexivity.
Qed.

End BaseStrategyAttribute.

Lemma invalid_base_strategy_raises_witness :
  update (base_strategy := flagged_base) flagged_config
         (X_cand stream_inputs) [true] None (mk_wstate None None 0%nat)
  = (mk_wstate (Some false) None 0%nat, inl TypeError).
Proof.
  destruct (invalid_base_strategy_raises
              (base_strategy := flagged_base)
              (classifier := demo_classifier)
              (random_state := demo_random_state)
              demo_super_validate_data flagged_config
              stream_inputs true (mk_wstate None None 0%nat) false
              [true] None) as [_ [_ [_ Hu]]].
  - reflexivity.
  - reflexivity.
  - exact Hu.
Defined.

(** A wrapper constructed around a strategy that has already counted four
    instances and sampled one: the first [update] works on a clone, whose
    counters start at zero. *)
Lemma update_commits_to_base_only_witness :
  exists st',
    update used_base_config [[1]] [true] None (mk_wstate None None 0%nat)
    = (st', inr tt) /\
    clf_ st' = None /\
    base_query_strategy_ st' = Some (FixedBudget.mk (f64_of_Q (1 # 2)) 1 1).
Proof.
  destruct (update used_base_config [[1]] [true] None
              (mk_wstate None None 0%nat))
    as [st' [e|[]]] eqn:E; [vm_compute in E; discriminate|].
  exists st'. split; [reflexivity|].
  destruct (update_commits_to_base_only used_base_config [[1]] [true] None
              (mk_wstate None None 0%nat) st' E) as [b [Hb [_ Hst]]].
  simpl in Hb. injection Hb as <-. subst st'. split; reflexivity.
Defined.

(** ** Delay wrappers: parameters left at [None], flag arrays of the wrong
       length, and the width of the window *)

Section LateFailures.

Context {B C R : Type}.
Context {base_strategy : BaseStrategy B} {classifier : Classifier C}
  {random_state : RandomState R}.
Variable super_validate_data : array_like -> result unit.

(** [w_train=None] is accepted by [_validate_w_train], but the forgetting
    wrapper cannot compute a window from it: once the arrays have passed
    validation and there is a candidate, the query raises a [TypeError]
    without having asked the base strategy anything. *)
Theorem unset_w_train_fails_late (cfg : config B C) (inp : inputs)
  (simulate : bool) (st s1 : wstate B C R) :
  w_train cfg = PyNone ->
  base_validate_data super_validate_data cfg inp st = (s1, inr tt) ->
  combine (combine (tX_cand inp) (ty_cand inp)) (X_cand inp) <> [] ->
  _validate_w_train cfg = inr tt /\
  forgetting_query super_validate_data cfg inp simulate st
  = (s1, inl TypeError).
Proof.
  intros Hw Hv Hc.
  assert (Hok : _validate_w_train cfg = inr tt)
    by (unfold _validate_w_train; rewrite Hw; reflexivity).
  split; [exact Hok|].
  unfold forgetting_query, forgetting_validate_data.
  rewrite (bindM_step _ _ st s1 tt).
  - destruct (combine (combine (tX_cand inp) (ty_cand inp)) (X_cand inp))
      as [|[[tXc tyc] Xc] rest]; [contradiction|].
    cbn [forgetting_loop]. apply bindM_inl.
    unfold liftR, forgetting_view, forgetting_mask. rewrite Hw. reflexivity.
  - rewrite (bindM_step _ _ st s1 tt Hv). unfold liftR. rewrite Hok.
    reflexivity.
Qed.

(** [K=None] and [delay_prior=None] are accepted by their validators, but
    a candidate with a pending instance can then not be scored: the body
    of the bagging loop raises instead of returning a utility. *)
Theorem unset_simulation_parameters_fail_late (cfg : config B C)
  (inp : inputs) (simulate : bool) (i : nat)
  (tX_cand_current ty_cand_current : Q) (map_B_n : list bool)
  (st : wstate B C R) :
  K cfg = PyNone \/ delay_prior cfg = PyNone ->
  pending_mask inp tX_cand_current ty_cand_current = inr map_B_n ->
  existsb (fun b => b) map_B_n = true ->
  (K cfg = PyNone -> _validate_K cfg = inr tt) /\
  (delay_prior cfg = PyNone -> _validate_delay_prior cfg = inr tt) /\
  exists e,
    snd (bagging_candidate cfg inp simulate i tX_cand_current
                           ty_cand_current st) = inl e.
Proof.
  intros Hnone Hmask Hany.
  split; [intros HK; unfold _validate_K; rewrite HK; reflexivity|].
  split; [intros HP; unfold _validate_delay_prior; rewrite HP; reflexivity|].
  unfold bagging_candidate, bindM, liftR. rewrite Hmask, Hany.
  destruct (np_mask_select map_B_n (X inp)) as [e|X_B_n];
    [exists e; reflexivity|].
  unfold get_class_probabilities.
  destruct (clf_ st) as [pwc|]; [|exists AttributeError; reflexivity].
  destruct (py_number (delay_prior cfg)) as [prior|] eqn:Ep;
    [|exists TypeError; reflexivity].
  destruct Hnone as [HK|HP].
  - rewrite HK. exists TypeError. reflexivity.
  - rewrite HP in Ep. discriminate.
Qed.

End LateFailures.

Lemma unset_w_train_fails_late_witness :
  forgetting_query demo_super_validate_data
    (mk_config None PyNone PyNone PyNone None : demo_config)
    stream_inputs true started_state
  = (started_state, inl TypeError).
Proof.
  apply (unset_w_train_fails_late demo_super_validate_data
           (mk_config None PyNone PyNone PyNone None : demo_config)
           stream_inputs true started_state started_state).
  - reflexivity.
  - vm_compute. reflexivity.
  - vm_compute. discriminate.
Defined.

Lemma unset_simulation_parameters_fail_late_witness :
  exists e,
    snd (bagging_candidate
           (mk_config None PyNone PyNone (PyFloat (1 # 1000)) None
            : demo_config)
           stream_inputs true 0 10 15 started_state) = inl e.
Proof.
  apply (unset_simulation_parameters_fail_late
           (mk_config None PyNone PyNone (PyFloat (1 # 1000)) None
            : demo_config)
           stream_inputs true 0 10 15 [false; true; false] started_state).
  - left. reflexivity.
  - vm_compute. reflexivity.
  - reflexivity.
Defined.

(** The flag array [acquisitions] is combined with the arrival times by
    numpy broadcasting: a single flag applies to every instance, and a
    flag array of any other wrong length makes the mask computation raise
    a [ValueError]. *)
Theorem pending_mask_flag_length (inp : inputs)
  (tX_cand_current ty_cand_current : Q) :
  (forall a, acquisitions inp = [a] ->
     pending_mask inp tX_cand_current ty_cand_current
     = inr (map (fun t => a && (Qle_bool tX_cand_current t
                                && negb (Qle_bool ty_cand_current t)))
                (ty inp))) /\
  (List.length (acquisitions inp) <> List.length (ty inp) ->
   List.length (acquisitions inp) <> 1%nat ->
   List.length (ty inp) <> 1%nat ->
   pending_mask inp tX_cand_current ty_cand_current = inl ValueError).
Proof.
  unfold pending_mask.
  rewrite np_broadcast2_same_length by (rewrite !length_map; reflexivity).
  cbn [bindE].
  set (inner := map (fun p => fst p && snd p)
                    (combine (map (fun t => Qle_bool tX_cand_current t)
                                  (ty inp))
                             (map (fun t =>
                                     negb (Qle_bool ty_cand_current t))
                                  (ty inp)))).
  assert (Hinner : inner
            = map (fun t => Qle_bool tX_cand_current t
                            && negb (Qle_bool ty_cand_current t)) (ty inp)).
  { unfold inner. induction (ty inp) as [|t l IH]; simpl;
      [reflexivity | rewrite IH; reflexivity]. }
  assert (Hlen : List.length inner = List.length (ty inp))
    by (rewrite Hinner; apply length_map).
  split.
  - intros a Ha. rewrite Ha. unfold np_broadcast2. cbn [List.length].
    destruct (Nat.eqb_spec 1 (List.length inner)) as [E|E].
    + rewrite Hinner in *. destruct (ty inp) as [|t [|t2 l]];
        simpl in E; try discriminate. reflexivity.
    + rewrite Hinner, map_map. reflexivity.
  - intros Hne H1 H2. unfold np_broadcast2.
    rewrite Hlen.
    destruct (Nat.eqb_spec (List.length (acquisitions inp))
                           (List.length (ty inp))) as [E|_];
      [contradiction|].
    destruct (acquisitions inp) as [|a [|a2 l]]; simpl in H1;
      try contradiction.
    + destruct inner as [|x [|x2 l]]; simpl in Hlen; try reflexivity.
      exfalso. apply H2. symmetry. exact Hlen.
    + destruct inner as [|x [|x2 l']]; simpl in Hlen; try reflexivity.
      exfalso. apply H2. symmetry. exact Hlen.
Qed.

Lemma pending_mask_flag_length_witness :
  pending_mask (mk_inputs [[1]] [[1]; [2]; [3]] [None; None; None]
                          [1; 8; 9] [3; 12; 20] [10] [15]
                          [true; true] None DFloat) 10 15
  = inl ValueError.
Proof.
  apply (pending_mask_flag_length
           (mk_inputs [[1]] [[1]; [2]; [3]] [None; None; None]
                      [1; 8; 9] [3; 12; 20] [10] [15] [true; true] None
                      DFloat)
           10 15); simpl; lia.
Defined.

(** A wider window never forgets an instance that a narrower window
    keeps. *)
Theorem forgetting_window_monotone {B C : Type} (cfg cfg' : config B C)
  (inp : inputs) (ty_cand_current w w' : Q) (mask mask' : list bool) :
  py_number (w_train cfg) = Some w ->
  py_number (w_train cfg') = Some w' ->
  w <= w' ->
  forgetting_mask cfg inp ty_cand_current = inr mask ->
  forgetting_mask cfg' inp ty_cand_current = inr mask' ->
  List.length mask = List.length mask' /\
  forall j, nth_error mask j = Some true -> nth_error mask' j = Some true.
Proof.
  unfold forgetting_mask. intros -> -> Hle Hm Hm'.
  injection Hm as <-. injection Hm' as <-.
  split; [rewrite !length_map; reflexivity|].
  intros j. rewrite !nth_error_map.
  destruct (nth_error (tX inp) j) as [t|]; simpl; [|discriminate].
  intros Hj. injection Hj as Hj. apply Qle_bool_iff in Hj.
  f_equal. apply Qle_bool_iff. lra.
Qed.

Lemma forgetting_window_monotone_witness :
  forgetting_mask forgetting_config stream_inputs 15
  = inr [false; true; true] /\
  forgetting_mask bagging_config stream_inputs 15
  = inr [true; true; true] /\
  nth_error [true; true; true] 1 = Some true.
Proof.
  split; [reflexivity|]. split; [reflexivity|].
  assert (Hle : inject_Z 7 <= inject_Z 500) by (vm_compute; discriminate).
  destruct (forgetting_window_monotone forgetting_config bagging_config
              stream_inputs 15 (inject_Z 7) (inject_Z 500)
              [false; true; true] [true; true; true]
              eq_refl eq_refl Hle eq_refl eq_refl) as [_ Hkeep].
  apply Hkeep. reflexivity.
Defined.

(** ** Delay wrappers: what a query returns and which attributes it
       touches *)

Lemma preserves_ret {S A F : Type} (proj : S -> F) (a : A) :
  preserves proj (ret a).
Proof. intros s. reflexivity. Qed.

Lemma preserves_raise {S A F : Type} (proj : S -> F) (e : exn) :
  preserves proj (raise (A := A) e).
Proof. intros s. reflexivity. Qed.

Lemma preserves_liftR {S A F : Type} (proj : S -> F) (r : result A) :
  preserves proj (liftR r).
Proof. intros s. reflexivity. Qed.

Lemma preserves_bind {S A A' F : Type} (proj : S -> F) (m : M S A)
  (k : A -> M S A') :
  preserves proj m -> (forall a, preserves proj (k a)) ->
  preserves proj (bindM m k).
Proof.
  intros Hm Hk s. unfold bindM. specialize (Hm s).
  destruct (m s) as [s1 [e|a]]; simpl in *; [exact Hm|].
  rewrite (Hk a s1). exact Hm.
Qed.

Lemma set_at_in_range {A : Type} (xs : list A) : forall i v r,
  set_at xs i v = inr r ->
  (i < List.length xs)%nat /\ List.length r = List.length xs.
Proof.
  induction xs as [|x xs IH]; intros [|i] v r Hs; simpl in Hs;
    try discriminate.
  - injection Hs as <-. simpl. split; [lia | reflexivity].
  - apply bindE_inr in Hs. destruct Hs as [r0 [H0 Hs]].
    injection Hs as <-. destruct (IH _ _ _ H0) as [H1 H2].
    simpl. split; lia.
Qed.

Lemma np_fill_at_in_range {A : Type} (idx : list nat) : forall (xs : list A) v r,
  np_fill_at xs idx v = inr r ->
  Forall (fun i => (i < List.length xs)%nat) idx.
Proof.
  induction idx as [|i idx IH]; intros xs v r Hf; simpl in Hf.
  - constructor.
  - apply bindE_inr in Hf. destruct Hf as [xs' [Hs Hf]].
    destruct (set_at_in_range _ _ _ _ Hs) as [Hi Hl].
    constructor; [exact Hi|].
    rewrite <- Hl. eapply IH. exact Hf.
Qed.

Section QueryOutputs.

Context {B C R : Type}.
Context {base_strategy : BaseStrategy B} {classifier : Classifier C}
  {random_state : RandomState R}.
Variable super_validate_data : array_like -> result unit.

Lemma forgetting_loop_outputs (cfg : config B C) (inp : inputs)
  (simulate : bool) :
  forall cands i sampled_indices utilities (st st' : wstate B C R) si us,
  forgetting_loop cfg inp simulate i cands sampled_indices utilities st
    = (st', inr (si, us)) ->
  exists new_si new_us,
    si = sampled_indices ++ new_si /\
    us = utilities ++ new_us /\
    List.length new_us = List.length cands /\
    StronglySorted lt new_si /\
    Forall (fun j => (i <= j < i + List.length cands)%nat) new_si.
Proof.
  induction cands as [|[[tXc tyc] Xc] rest IH];
    intros i sampled_indices utilities st st' si us Hl;
    cbn [forgetting_loop] in Hl.
  - inversion Hl; subst. exists [], []. rewrite !app_nil_r.
    repeat split; constructor.
  - apply bindM_inr in Hl. destruct Hl as [s1 [args [_ Hl]]].
    apply bindM_inr in Hl. destruct Hl as [s2 [[sample utility] [_ Hl]]].
    apply IH in Hl.
    destruct Hl as [new_si [new_us [Hsi [Hus [Hlen [Hsorted Hrange]]]]]].
    exists ((if Nat.eqb (List.length sample) 0 then [] else [i]) ++ new_si),
           (utility :: new_us).
    split.
    { rewrite Hsi. destruct (Nat.eqb (List.length sample) 0);
        [reflexivity | rewrite <- app_assoc; reflexivity]. }
    split; [rewrite Hus, <- app_assoc; reflexivity|].
    split; [simpl; lia|].
    assert (Hrange' : Forall (fun j => (i < j < i + S (List.length rest))%nat)
                             new_si).
    { eapply Forall_impl; [|exact Hrange]. simpl. intros j Hj. lia. }
    split.
    + destruct (Nat.eqb (List.length sample) 0); simpl; [exact Hsorted|].
      constructor; [exact Hsorted|].
      eapply Forall_impl; [|exact Hrange']. simpl. intros j Hj. lia.
    + cbn [List.length].
      destruct (Nat.eqb (List.length sample) 0); simpl.
      * eapply Forall_impl; [|exact Hrange']. simpl. intros j Hj. lia.
      * constructor; [lia|].
        eapply Forall_impl; [|exact Hrange']. simpl. intros j Hj. lia.
Qed.

(** A forgetting query that returns, returns one utility array per
    candidate, where the candidates are the rows that [tX_cand],
    [ty_cand] and [X_cand] all have; the sampled indices are positions of
    candidates in strictly increasing order. *)
Theorem forgetting_query_outputs (cfg : config B C) (inp : inputs)
  (simulate : bool) (st st' : wstate B C R)
  (sampled_indices : list nat) (utilities : list (list Q)) :
  forgetting_query super_validate_data cfg inp simulate st
    = (st', inr (sampled_indices, utilities)) ->
  let n := Nat.min (Nat.min (List.length (tX_cand inp))
                            (List.length (ty_cand inp)))
                   (List.length (X_cand inp)) in
  List.length utilities = n /\
  StronglySorted lt sampled_indices /\
  Forall (fun j => (j < n)%nat) sampled_indices.
Proof.
  intros Hq n. unfold forgetting_query in Hq.
  apply bindM_inr in Hq. destruct Hq as [s1 [[] [_ Hq]]].
  apply forgetting_loop_outputs in Hq.
  destruct Hq as [new_si [new_us [Hsi [Hus [Hlen [Hsorted Hrange]]]]]].
  simpl in Hsi, Hus. subst.
  rewrite !length_combine in *. fold n in Hlen, Hrange.
  split; [exact Hlen|]. split; [exact Hsorted|].
  eapply Forall_impl; [|exact Hrange]. simpl. intros j Hj. lia.
Qed.

Lemma bagging_loop_outputs (cfg : config B C) (inp : inputs)
  (simulate : bool) :
  forall cands i avg (st st' : wstate B C R) us,
  bagging_loop cfg inp simulate i cands avg st = (st', inr us) ->
  List.length us = (List.length avg + List.length cands)%nat.
Proof.
  induction cands as [|[tXc tyc] rest IH]; intros i avg st st' us Hl;
    cbn [bagging_loop] in Hl.
  - inversion Hl; subst. simpl. lia.
  - apply bindM_inr in Hl. destruct Hl as [s1 [u [_ Hl]]].
    apply IH in Hl. rewrite Hl, length_app. simpl. lia.
Qed.

(** A bagging query that returns, returns one averaged utility per
    candidate; the sampled indices are what the base strategy's budget
    manager answers, in simulate mode, for exactly these utilities, and
    each of them is the position of a row of [X_cand]. *)
Theorem bagging_query_outputs (cfg : config B C) (inp : inputs)
  (simulate : bool) (st st' : wstate B C R)
  (sampled_indices : list nat) (utilities : list Q) :
  bagging_query super_validate_data cfg inp simulate st
    = (st', inr (sampled_indices, utilities)) ->
  List.length utilities
    = Nat.min (List.length (tX_cand inp)) (List.length (ty_cand inp)) /\
  (exists b, sampled_indices
             = snd (budget_manager_sample utilities true b)) /\
  Forall (fun j => (j < List.length (X_cand inp))%nat) sampled_indices.
Proof.
  intros Hq. unfold bagging_query in Hq.
  apply bindM_inr in Hq. destruct Hq as [s1 [[] [_ Hq]]].
  apply bindM_inr in Hq. destruct Hq as [s2 [avg [Hloop Hq]]].
  apply bindM_inr in Hq. destruct Hq as [s3 [idx [Hs Hq]]].
  apply bindM_inr in Hq. destruct Hq as [s4 [sampled [Hf Hq]]].
  apply bindM_inr in Hq. destruct Hq as [s5 [[] [_ Hq]]].
  inversion Hq; subst; clear Hq.
  apply bagging_loop_outputs in Hloop. simpl in Hloop.
  rewrite length_combine in Hloop.
  apply with_base_inr in Hs. destruct Hs as [b [_ [Hidx _]]].
  apply liftR_inr in Hf. destruct Hf as [_ Hf].
  unfold sampled_flags in Hf. apply np_fill_at_in_range in Hf.
  rewrite repeat_length in Hf.
  split; [exact Hloop|]. split; [exists b; exact Hidx | exact Hf].
Qed.

End QueryOutputs.

Lemma forgetting_query_outputs_witness :
  exists st' sampled_indices utilities,
    forgetting_query demo_super_validate_data forgetting_config
                     stream_inputs true started_state
    = (st', inr (sampled_indices, utilities)) /\
    List.length utilities = 1%nat.
Proof.
  destruct (forgetting_query demo_super_validate_data forgetting_config
              stream_inputs true started_state)
    as [st' [e|[si us]]] eqn:E; [vm_compute in E; discriminate|].
  exists st', si, us. split; [reflexivity|].
  apply (forgetting_query_outputs demo_super_validate_data
           forgetting_config stream_inputs true started_state st' si us E).
Defined.

Lemma bagging_query_outputs_witness :
  exists st' sampled_indices utilities,
    bagging_query demo_super_validate_data bagging_config
                  stream_inputs true started_state
    = (st', inr (sampled_indices, utilities)) /\
    List.length utilities = 1%nat.
Proof.
  destruct (bagging_query demo_super_validate_data bagging_config
              stream_inputs true started_state)
    as [st' [e|[si us]]] eqn:E; [vm_compute in E; discriminate|].
  exists st', si, us. split; [reflexivity|].
  apply (bagging_query_outputs demo_super_validate_data
           bagging_config stream_inputs true started_state st' si us E).
Defined.

Section AttributeFrames.

Context {B C R : Type}.
Context {base_strategy : BaseStrategy B} {classifier : Classifier C}
  {random_state : RandomState R}.
Variable super_validate_data : array_like -> result unit.

Lemma with_base_keeps_simulation_attributes {A : Type} (f : B -> B * A) :
  preserves (@simulation_attributes B C R) (with_base f).
Proof.
  intros s. unfold with_base.
  destruct (base_query_strategy_ s) as [b|]; [|reflexivity].
  destruct (f b) as [b' a]. reflexivity.
Qed.

Lemma with_base_keeps_base {A : Type} (f : B -> B * A) :
  (forall b, fst (f b) = b) ->
  preserves (@base_query_strategy_ B C R) (with_base f).
Proof.
  intros Hf s. unfold with_base.
  destruct (base_query_strategy_ s) as [b|] eqn:E; [|exact E].
  specialize (Hf b). destruct (f b) as [b' a]. simpl in *. congruence.
Qed.

Lemma all_false_broadcast (xs ys m : list bool) :
  Forall (fun a => a = false) xs ->
  np_broadcast2 andb xs ys = inr m ->
  existsb (fun b => b) m = false.
Proof.
  intros Hx Hm.
  assert (Hall : Forall (fun a => a = false) m).
  { unfold np_broadcast2 in Hm.
    destruct (Nat.eqb (List.length xs) (List.length ys)).
    - injection Hm as <-. apply Forall_forall. intros q Hq.
      apply in_map_iff in Hq. destruct Hq as [[a b] [<- Hin]].
      apply in_combine_l in Hin. rewrite Forall_forall in Hx.
      simpl. rewrite (Hx a Hin). reflexivity.
    - destruct xs as [|x [|x2 xs]].
      + destruct ys as [|y [|y2 ys]]; try discriminate.
        injection Hm as <-. constructor.
      + injection Hm as <-. inversion Hx; subst.
        apply Forall_forall. intros q Hq. apply in_map_iff in Hq.
        destruct Hq as [b [<- _]]. reflexivity.
      + destruct ys as [|y [|y2 ys]]; try discriminate.
        injection Hm as <-.
        inversion Hx as [|? ? Hx1 Hx']; subst.
        inversion Hx' as [|? ? Hx2 Hx'']; subst. simpl.
        constructor; [reflexivity|]. constructor; [reflexivity|].
        apply Forall_forall. intros q Hq.
        apply in_map_iff in Hq. destruct Hq as [a [<- Hin]].
        rewrite Forall_forall in Hx''. rewrite (Hx'' a Hin).
        reflexivity. }
  clear -Hall. induction Hall as [|b m Hb _ IH]; [reflexivity|].
  simpl. rewrite Hb, IH. reflexivity.
Qed.

Lemma bagging_candidate_without_acquisitions (cfg : config B C)
  (inp : inputs) (simulate : bool) (i : nat) (tXc tyc : Q) :
  Forall (fun a => a = false) (acquisitions inp) ->
  preserves (@simulation_attributes B C R)
            (bagging_candidate cfg inp simulate i tXc tyc).
Proof.
  intros Hacq s. unfold bagging_candidate. unfold bindM at 1. unfold liftR at 1.
  destruct (pending_mask inp tXc tyc) as [e|m] eqn:Em; [reflexivity|].
  unfold pending_mask in Em.
  apply bindE_inr in Em. destruct Em as [inner [_ Em]].
  rewrite (all_false_broadcast _ _ _ Hacq Em).
  apply preserves_bind; [apply preserves_liftR|]. intros args.
  apply preserves_bind; [apply with_base_keeps_simulation_attributes|].
  intros [idx us]. apply preserves_liftR.
Qed.

(** When no label has been acquired, the bagging wrapper never enters the
    simulation: after validation it draws nothing from the random
    generator and does not refit the classifier, whatever the candidates
    are and whether or not the query is simulated. *)
Theorem bagging_without_acquisitions (cfg : config B C) (inp : inputs)
  (simulate : bool) (st : wstate B C R) :
  Forall (fun a => a = false) (acquisitions inp) ->
  let validated :=
    fst (bagging_validate_data super_validate_data cfg inp st) in
  let final := fst (bagging_query super_validate_data cfg inp simulate st) in
  clf_ final = clf_ validated /\
  random_state_ final = random_state_ validated.
Proof.
  intros Hacq validated final.
  assert (Hloop : forall cands i avg,
            preserves (@simulation_attributes B C R)
                      (bagging_loop cfg inp simulate i cands avg)).
  { induction cands as [|[tXc tyc] rest IH]; intros i avg;
      cbn [bagging_loop]; [apply preserves_ret|].
    apply preserves_bind;
      [apply bagging_candidate_without_acquisitions; exact Hacq|].
    intros u. apply IH. }
  assert (Hfinal : simulation_attributes final
                   = simulation_attributes validated).
  { unfold final, validated, bagging_query. unfold bindM at 1.
    destruct (bagging_validate_data super_validate_data cfg inp st)
      as [s1 [e|[]]]; [reflexivity|]. simpl fst at 2.
    apply (preserves_bind (@simulation_attributes B C R)); [apply Hloop|].
    intros avg.
    apply preserves_bind; [apply with_base_keeps_simulation_attributes|].
    intros idx. apply preserves_bind; [apply preserves_liftR|].
    intros sampled. apply preserves_bind.
    - destruct simulate; [apply preserves_ret|].
      apply with_base_keeps_simulation_attributes.
    - intros []. apply preserves_ret. }
  unfold simulation_attributes in Hfinal.
  injection Hfinal as H1 H2. split; assumption.
Qed.

Hypothesis base_honours_simulate :
  forall args b, fst (base_query args true b) = b.
Hypothesis budget_manager_honours_simulate :
  forall utilities b, fst (budget_manager_sample utilities true b) = b.

Lemma get_class_probabilities_keeps_base (cfg : config B C)
  (X_B_n X0 : list (list Q)) (y0 : list label)
  (sw : option (list npfloat)) :
  preserves (@base_query_strategy_ B C R)
            (get_class_probabilities cfg X_B_n X0 y0 sw).
Proof.
  intros s. unfold get_class_probabilities.
  destruct (clf_ s) as [pwc|]; [|reflexivity].
  destruct (py_number (delay_prior cfg)); reflexivity.
Qed.

Lemma with_random_state_keeps_base {A : Type} (f : R -> R * A) :
  preserves (@base_query_strategy_ B C R) (with_random_state f).
Proof.
  intros s. unfold with_random_state.
  destruct (f (random_state_ s)) as [r a]. reflexivity.
Qed.

Lemma bagging_simulations_keep_base (inp : inputs) (i : nat)
  (map_B_n : list bool) (probabilities : list (list npfloat)) (tXc : Q) :
  forall k acc,
  preserves (@base_query_strategy_ B C R)
            (bagging_simulations k inp i map_B_n probabilities tXc acc).
Proof.
  induction k as [|k IH]; intros acc; cbn [bagging_simulations];
    [apply preserves_ret|].
  apply preserves_bind; [|intros u; apply IH].
  unfold bagging_simulation.
  apply preserves_bind; [apply with_random_state_keeps_base|]. intros draws.
  apply preserves_bind; [apply preserves_liftR|]. intros y_B_n.
  apply preserves_bind; [apply preserves_liftR|]. intros args.
  apply preserves_bind.
  - apply with_base_keeps_base. intros b. apply base_honours_simulate.
  - intros [idx us]. apply preserves_liftR.
Qed.

Lemma bagging_loop_keeps_base (cfg : config B C) (inp : inputs) :
  forall cands i avg,
  preserves (@base_query_strategy_ B C R) (bagging_loop cfg inp true i cands avg).
Proof.
  induction cands as [|[tXc tyc] rest IH]; intros i avg;
    cbn [bagging_loop]; [apply preserves_ret|].
  apply preserves_bind; [|intros u; apply IH].
  unfold bagging_candidate.
  apply preserves_bind; [apply preserves_liftR|]. intros m.
  destruct (existsb (fun b => b) m).
  - apply preserves_bind; [apply preserves_liftR|]. intros X_B_n.
    apply preserves_bind; [apply get_class_probabilities_keeps_base|].
    intros probs.
    apply preserves_bind; [apply preserves_liftR|]. intros k.
    apply preserves_bind; [apply bagging_simulations_keep_base|].
    intros sums. apply preserves_liftR.
  - apply preserves_bind; [apply preserves_liftR|]. intros args.
    apply preserves_bind.
    + apply with_base_keeps_base. intros b. apply base_honours_simulate.
    + intros [idx us]. apply preserves_liftR.
Qed.

Lemma fuzzy_loop_keeps_base (cfg : config B C) (inp : inputs) :
  forall cands i l,
  preserves (@base_query_strategy_ B C R) (fuzzy_loop cfg inp i cands l).
Proof.
  induction cands as [|[tXc tyc] rest IH]; intros i l;
    cbn [fuzzy_loop]; [apply preserves_ret|].
  apply preserves_bind; [|intros l'; apply IH].
  unfold fuzzy_candidate.
  apply preserves_bind; [apply preserves_liftR|]. intros m.
  destruct (existsb (fun b => b) m).
  - apply preserves_bind; [apply preserves_liftR|]. intros X_B_n.
    apply preserves_bind; [apply get_class_probabilities_keeps_base|].
    intros probs.
    apply preserves_bind; [apply preserves_liftR|]. intros args.
    apply preserves_bind.
    + apply with_base_keeps_base. intros b. apply base_honours_simulate.
    + intros [idx us].
      apply preserves_bind; [apply preserves_liftR|]. intros u.
      apply preserves_ret.
  - apply preserves_bind; [apply preserves_liftR|]. intros args.
    apply preserves_bind.
    + apply with_base_keeps_base. intros b. apply base_honours_simulate.
    + intros [idx us].
      apply preserves_bind; [apply preserves_liftR|]. intros u.
      apply preserves_ret.
Qed.

Lemma validation_keeps_validated_base (cfg : config B C) (inp : inputs)
  (st : wstate B C R) (with_K : bool) :
  base_query_strategy_
    (fst ((if with_K
           then bagging_validate_data super_validate_data cfg inp
           else fuzzy_validate_data super_validate_data cfg inp) st))
  = base_query_strategy_ (fst (_validate_base_query_strategy cfg st)).
Proof.
  rewrite <- (base_validate_data_state super_validate_data cfg inp st).
  assert (Hclf : preserves (@base_query_strategy_ B C R) (_validate_clf cfg inp)).
  { intros s. apply _validate_clf_base. }
  destruct with_K; unfold bagging_validate_data, fuzzy_validate_data;
    unfold bindM at 1;
    destruct (base_validate_data super_validate_data cfg inp st)
      as [s1 [e|[]]]; try reflexivity; simpl fst at 2.
  - apply (preserves_bind (@base_query_strategy_ B C R)); [exact Hclf|].
    intros []. apply preserves_bind; [apply preserves_liftR|].
    intros []. apply preserves_liftR.
  - apply (preserves_bind (@base_query_strategy_ B C R)); [exact Hclf|].
    intros []. apply preserves_liftR.
Qed.

(** A simulated query of the bagging or the fuzzy wrapper leaves the base
    strategy and its budget manager as validation found (or created)
    them, provided the base strategy and the budget manager themselves
    honour [simulate=True]: every call the wrappers make on them in a
    simulated query is a simulated one. *)
Theorem simulated_query_leaves_base (cfg : config B C) (inp : inputs)
  (st : wstate B C R) :
  let validated_base :=
    base_query_strategy_ (fst (_validate_base_query_strategy cfg st)) in
  base_query_strategy_
    (fst (bagging_query super_validate_data cfg inp true st))
    = validated_base /\
  base_query_strategy_
    (fst (fuzzy_query super_validate_data cfg inp true st))
    = validated_base.
Proof.
  intros validated_base. split.
  - unfold validated_base.
    rewrite <- (validation_keeps_validated_base cfg inp st true).
    unfold bagging_query. unfold bindM at 1.
    destruct (bagging_validate_data super_validate_data cfg inp st)
      as [s1 [e|[]]]; [reflexivity|]. simpl fst at 2.
    apply (preserves_bind (@base_query_strategy_ B C R));
      [apply bagging_loop_keeps_base|].
    intros avg. apply preserves_bind.
    { apply with_base_keeps_base. intros b.
      apply budget_manager_honours_simulate. }
    intros idx. apply preserves_bind; [apply preserves_liftR|].
    intros sampled. apply preserves_bind; [apply preserves_ret|].
    intros []. apply preserves_ret.
  - unfold validated_base.
    rewrite <- (validation_keeps_validated_base cfg inp st false).
    unfold fuzzy_query. unfold bindM at 1.
    destruct (fuzzy_validate_data super_validate_data cfg inp st)
      as [s1 [e|[]]]; [reflexivity|]. simpl fst at 2.
    apply (preserves_bind (@base_query_strategy_ B C R));
      [apply fuzzy_loop_keeps_base|].
    intros l. apply preserves_bind.
    { destruct (l_tmp_sampled_indices l);
        [apply preserves_ret | apply preserves_raise]. }
    intros tmp. apply preserves_bind; [apply preserves_liftR|].
    intros sampled. apply preserves_bind; [apply preserves_ret|].
    intros []. apply preserves_ret.
Qed.

End AttributeFrames.

(** The concrete base strategy and budget manager honour
    [simulate=True]. *)
Lemma demo_sample_simulate_restores (utilities : list Q)
  (st : FixedBudget.state) :
  fst (demo_sample utilities true st) = st.
Proof.
  unfold demo_sample.
  destruct (FixedBudget.sample (map f64_of_Q utilities) true st)
    as [st' [e|idx]] eqn:E; [reflexivity|]. simpl.
  unfold FixedBudget.sample, FixedBudget.sample_full, bindM, ret in E.
  destruct (FixedBudget.loop (map f64_of_Q utilities) st)
    as [st1 [e|[bls ss]]] eqn:El; [discriminate|].
  destruct (loop_returns _ _ _ _ _ El) as [Hb _].
  injection E as <- _. rewrite Hb. destruct st; reflexivity.
Qed.

Lemma demo_query_simulate_restores (args : base_args)
  (st : FixedBudget.state) :
  fst (demo_query args true st) = st.
Proof.
  unfold demo_query.
  pose proof (demo_sample_simulate_restores [demo_utility args] st) as Hs.
  destruct (demo_sample [demo_utility args] true st) as [st' idx].
  exact Hs.
Qed.

Lemma bagging_without_acquisitions_witness :
  random_state_
    (fst (bagging_query demo_super_validate_data bagging_config
                        idle_inputs false started_state))
  = random_state_
      (fst (bagging_validate_data demo_super_validate_data bagging_config
                                  idle_inputs started_state)).
Proof.
  apply (bagging_without_acquisitions demo_super_validate_data
           bagging_config idle_inputs false started_state).
  repeat constructor.
Defined.

Lemma simulated_query_leaves_base_witness :
  base_query_strategy_
    (fst (bagging_query demo_super_validate_data bagging_config
                        stream_inputs true started_state))
  = base_query_strategy_ started_state.
Proof.
  apply (simulated_query_leaves_base
           (base_strategy := demo_base) (classifier := demo_classifier)
           (random_state := demo_random_state)
           demo_super_validate_data
           demo_query_simulate_restores demo_sample_simulate_restores
           bagging_config stream_inputs started_state).
Defined.

Lemma forgetting_simulate_preserves_state_witness :
  fst (forgetting_query demo_super_validate_data forgetting_config
                        stream_inputs true started_state)
  = started_state.
Proof.
  apply (forgetting_simulate_preserves_state
           (base_strategy := demo_base) (C := demo_estimator) (R := nat)
           demo_super_validate_data
           demo_query_simulate_restores forgetting_config stream_inputs
           started_state (FixedBudget.mk (f64_of_Q (1 # 2)) 4 1)).
  reflexivity.
Defined.

(** ** FuzzyDelaySimulationWrapper: the pseudo-instances *)





(** ** BADGE: the uniform fallback and the recorded utilities *)

Lemma np_sum_all_zero (l : list Q) :
  Forall (fun q => q == 0) l -> np_sum l == 0.
Proof.
  induction 1 as [|x l Hx _ IH].
  - reflexivity.
  - rewrite np_sum_cons, Hx, IH. ring.
Qed.

Lemma np_take_In {A : Type} (xs : list A) : forall idx r,
  np_take xs idx = inr r -> Forall (fun x => In x xs) r.
Proof.
  induction idx as [|i idx IH]; intros r Hr; simpl in Hr.
  - injection Hr as <-. constructor.
  - apply bindE_inr in Hr. destruct Hr as [x [Hx Hr]].
    apply bindE_inr in Hr. destruct Hr as [r0 [Hr0 Hr]].
    injection Hr as <-. constructor; [|apply IH; exact Hr0].
    unfold py_index in Hx.
    destruct (nth_error xs i) as [x0|] eqn:E; [|discriminate].
    injection Hx as <-. eapply nth_error_In. exact E.
Qed.

Section Collapse.

Variable dist : list Q -> list Q -> Q.
Variable g_x : list (list Q).
Hypothesis all_coincide :
  forall x y, In x g_x -> In y g_x -> dist x y == 0.

Lemma min_distance_zero (Y : list (list Q)) (x : list Q) (d : Q) :
  In x g_x -> Forall (fun y => In y g_x) Y ->
  Badge.min_distance dist Y x = inr d -> d == 0.
Proof.
  intros Hx HY.
  destruct Y as [|y0 ys]; simpl; intros Hd; [discriminate|].
  injection Hd as <-.
  inversion HY as [|? ? Hy0 Hys]; subst.
  assert (G : forall l a, Forall (fun y => In y g_x) l -> a == 0 ->
              fold_left (fun m y => Qmin m (dist x y)) l a == 0).
  { induction l as [|y l IH]; intros a Hl Ha; simpl; [exact Ha|].
    inversion Hl as [|? ? Hy Hl']; subst.
    apply IH; [exact Hl'|].
    destruct (Q.min_spec a (dist x y)) as [[_ Hm]|[_ Hm]]; rewrite Hm;
      [exact Ha | apply all_coincide; assumption]. }
  apply G; [exact Hys | apply all_coincide; assumption].
Qed.

Lemma pairwise_min_zero (Y : list (list Q)) :
  Forall (fun y => In y g_x) Y ->
  forall rows D0,
  Forall (fun x => In x g_x) rows ->
  Badge.pairwise_min dist rows Y = inr D0 ->
  Forall (fun d => d == 0) D0.
Proof.
  intros HY.
  induction rows as [|x rows IH]; intros D0 Hrows HD; simpl in HD.
  - injection HD as <-. constructor.
  - inversion Hrows as [|? ? Hx Hrows']; subst.
    apply bindE_inr in HD. destruct HD as [d [Hd HD]].
    apply bindE_inr in HD. destruct HD as [ds [Hds HD]].
    injection HD as <-. constructor.
    + apply (min_distance_zero Y x d Hx HY Hd).
    + apply IH; assumption.
Qed.

Lemma min_with_zero (a d : Q) : 0 <= a -> d == 0 -> Qmin a d == 0.
Proof.
  intros Ha Hd.
  destruct (Q.min_spec a d) as [[Hlt Hm]|[Hle Hm]]; rewrite Hm; lra.
Qed.

Lemma broadcast_min_zero (dl D0 D : list Q) :
  Forall (fun a => 0 <= a) dl ->
  Forall (fun d => d == 0) D0 ->
  np_broadcast2 Qmin dl D0 = inr D ->
  Forall (fun d => d == 0) D.
Proof.
  intros Hdl HD0 HD. rewrite Forall_forall in Hdl, HD0.
  apply Forall_forall. intros q Hq. unfold np_broadcast2 in HD.
  destruct (Nat.eqb (List.length dl) (List.length D0)).
  - injection HD as <-. apply in_map_iff in Hq.
    destruct Hq as [[a d] [<- Hin]]. simpl.
    apply min_with_zero;
      [apply Hdl; eapply in_combine_l; exact Hin
      |apply HD0; eapply in_combine_r; exact Hin].
  - assert (Hcase :
      (exists a, In a dl /\ exists d, In d D0 /\ q = Qmin a d)).
    { destruct dl as [|a [|a2 dl']].
      - destruct D0 as [|d [|d2 D0']]; try discriminate.
        injection HD as <-. destruct Hq.
      - injection HD as <-. apply in_map_iff in Hq.
        destruct Hq as [d [<- Hin]].
        exists a. split; [left; reflexivity|]. exists d. split;
          [exact Hin | reflexivity].
      - destruct D0 as [|d [|d2 D0']]; try discriminate.
        injection HD as <-.
        change (In q (map (fun x => Qmin x d) (a :: a2 :: dl'))) in Hq.
        apply in_map_iff in Hq. destruct Hq as [a0 [<- Hin]].
        exists a0. split; [exact Hin|]. exists d.
        split; [left; reflexivity | reflexivity]. }
    destruct Hcase as [a [Ha [d [Hd ->]]]].
    apply min_with_zero; [apply Hdl; exact Ha | apply HD0; exact Hd].
Qed.

(** When all gradient embeddings coincide (the distance between any two
    rows of [g_x] is zero, as for a classifier that is certain about every
    candidate) and the cached vector has no negative entry,
    [_d_probability] always answers with the randomized case: a vector of
    ones. *)
Theorem d_probability_collapsed (query_indicies : list nat)
  (d_latest : option (list Q)) (p : list Q) (flag : bool) :
  (forall dl, d_latest = Some dl -> Forall (fun a => 0 <= a) dl) ->
  Badge._d_probability dist g_x query_indicies d_latest = inr (p, flag) ->
  flag = true /\ p = np_ones (List.length g_x).
Proof.
  intros Hdl Hp. apply _d_probability_inr in Hp.
  destruct Hp
    as [[-> ->] | [-> [_ [centers [D0 [D [Hc [HD0 [HD [Hne _]]]]]]]]]].
  - split; reflexivity.
  - exfalso. apply Hne.
    apply pairwise_min_zero in HD0;
      [|eapply np_take_In; exact Hc
       |apply Forall_forall; intros x Hx; exact Hx].
    assert (HDz : Forall (fun d => d == 0) D).
    { destruct d_latest as [dl|].
      - eapply broadcast_min_zero; [apply Hdl; reflexivity | exact HD0 |
                                    exact HD].
      - injection HD as <-. exact HD0. }
    apply np_sum_all_zero. apply Forall_forall. intros q Hq.
    apply in_map_iff in Hq. destruct Hq as [d [<- Hd]].
    rewrite Forall_forall in HDz. rewrite (HDz d Hd). ring.
Qed.

End Collapse.

(** Two candidates with the same gradient embedding under the Euclidean
    distance. *)
Lemma d_probability_collapsed_witness :
  Badge._d_probability Badge.euclidean_1d [[2]; [2]] [0%nat] (Some [1; 1])
  = inr (np_ones 2, true).
Proof.
  destruct (Badge._d_probability Badge.euclidean_1d [[2]; [2]] [0%nat]
              (Some [1; 1])) as [e|[p flag]] eqn:E;
    [vm_compute in E; discriminate|].
  destruct (d_probability_collapsed Badge.euclidean_1d [[2]; [2]])
    with (query_indicies := [0%nat]) (d_latest := Some [1; 1])
         (p := p) (flag := flag) as [-> ->].
  - intros x y [<-|[<-|[]]] [<-|[<-|[]]]; reflexivity.
  - intros dl Hdl. injection Hdl as <-.
    repeat constructor; vm_compute; discriminate.
  - exact E.
  - reflexivity.
Defined.

Lemma set_at_nth {A : Type} (xs : list A) : forall i v r,
  set_at xs i v = inr r ->
  nth_error r i = Some v /\
  forall j, j <> i -> nth_error r j = nth_error xs j.
Proof.
  induction xs as [|x xs IH]; intros [|i] v r Hs; simpl in Hs;
    try discriminate.
  - injection Hs as <-. split; [reflexivity|].
    intros [|j] Hj; [contradiction | reflexivity].
  - apply bindE_inr in Hs. destruct Hs as [r0 [H0 Hs]].
    injection Hs as <-. destruct (IH _ _ _ H0) as [H1 H2].
    split; [exact H1|].
    intros [|j] Hj; [reflexivity|]. simpl. apply H2. lia.
Qed.

Lemma np_fill_at_nth {A : Type} (idx : list nat) (v : A) : forall xs r,
  np_fill_at xs idx v = inr r ->
  List.length r = List.length xs /\
  forall j,
    (In j idx -> nth_error r j = Some v) /\
    (~ In j idx -> nth_error r j = nth_error xs j).
Proof.
  induction idx as [|i idx IH]; intros xs r Hf; simpl in Hf.
  - injection Hf as <-. split; [reflexivity|].
    intros j. split; [intros [] | reflexivity].
  - apply bindE_inr in Hf. destruct Hf as [xs' [Hs Hf]].
    destruct (set_at_in_range _ _ _ _ Hs) as [_ Hl].
    destruct (set_at_nth _ _ _ _ Hs) as [Hi Hother].
    destruct (IH _ _ Hf) as [Hlen Hn].
    split; [congruence|].
    intros j. destruct (Hn j) as [Hin Hout]. split.
    + intros [<-|Hj].
      * destruct (in_dec Nat.eq_dec i idx) as [Hd|Hd];
          [apply Hin; exact Hd | rewrite (Hout Hd); exact Hi].
      * apply Hin. exact Hj.
    + intros Hnot. rewrite Hout by (intros Hj; apply Hnot; right; exact Hj).
      apply Hother. intros ->. apply Hnot. left. reflexivity.
Qed.

Lemma np_put_untouched {A : Type} (idx : list nat) :
  forall (vs xs r : list A),
  np_put xs idx vs = inr r ->
  List.length r = List.length xs /\
  forall j, ~ In j idx -> nth_error r j = nth_error xs j.
Proof.
  induction idx as [|i idx IH]; intros [|v vs] xs r Hp; simpl in Hp;
    try discriminate.
  - injection Hp as <-. split; reflexivity.
  - apply bindE_inr in Hp. destruct Hp as [xs' [Hs Hp]].
    destruct (set_at_in_range _ _ _ _ Hs) as [_ Hl].
    destruct (set_at_nth _ _ _ _ Hs) as [_ Hother].
    destruct (IH _ _ _ Hp) as [Hlen Hn].
    split; [congruence|].
    intros j Hnot. rewrite Hn by (intros Hj; apply Hnot; right; exact Hj).
    apply Hother. intros ->. apply Hnot. left. reflexivity.
Qed.

(** Every round records one row of utilities, one entry per sample. The
    entry is nan ([None]) for every sample selected in an earlier round
    and for every sample outside the unlabeled pool. *)
Theorem badge_round_utilities (dist : list Q -> list Q -> Q) (R : Type)
  (choice : nat -> R -> R * nat) (rvs : list Q -> R -> R * nat)
  (g_x : list (list Q)) (unlbld_mapping : list nat) (n_samples i : nat)
  (st st' : Badge.loop_state R) :
  Badge.round dist R choice rvs g_x unlbld_mapping n_samples i st
    = inr st' ->
  exists row,
    Badge.utilities R st' = Badge.utilities R st ++ [row] /\
    List.length row = n_samples /\
    forall j, (j < n_samples)%nat ->
      In j (Badge.query_indicies R st) \/ ~ In j unlbld_mapping ->
      nth_error row j = Some None.
Proof.
  unfold Badge.round. intros Hr.
  apply bindE_inr in Hr. destruct Hr as [[d_probas is_randomized] [_ Hr]].
  apply bindE_inr in Hr. destruct Hr as [row0 [Hput Hr]].
  apply bindE_inr in Hr. destruct Hr as [row [Hfill Hr]].
  destruct (if is_randomized
            then choice (List.length g_x) (Badge.random_state_ R st)
            else rvs d_probas (Badge.random_state_ R st)) as [rs idx_in].
  apply bindE_inr in Hr. destruct Hr as [idx [_ Hr]].
  injection Hr as <-. cbn [Badge.utilities].
  destruct (np_put_untouched _ _ _ _ Hput) as [Hl0 Hn0].
  destruct (np_fill_at_nth _ _ _ _ Hfill) as [Hl1 Hn1].
  rewrite repeat_length in Hl0.
  exists row. split; [reflexivity|]. split; [congruence|].
  intros j Hj Hcase.
  destruct (in_dec Nat.eq_dec j (Badge.query_indicies R st)) as [Hin|Hnot].
  - apply (proj1 (Hn1 j) Hin).
  - rewrite (proj2 (Hn1 j) Hnot).
    destruct Hcase as [Hin|Hout]; [contradiction|].
    rewrite (Hn0 j Hout). apply nth_error_repeat. exact Hj.
Qed.

Lemma badge_round_utilities_witness :
  exists st' row,
    Badge.round Badge.euclidean_1d (list nat) scripted_choice
                first_positive_rvs [[0]; [3]] [1; 2]%nat 4 0
                (Badge.mk_loop (list nat) [0%nat] [] [] 0%nat []) = inr st' /\
    Badge.utilities (list nat) st' = [row] /\
    nth_error row 0 = Some None /\ nth_error row 3 = Some None.
Proof.
  destruct (Badge.round Badge.euclidean_1d (list nat) scripted_choice
              first_positive_rvs [[0]; [3]] [1; 2]%nat 4 0
              (Badge.mk_loop (list nat) [0%nat] [] [] 0%nat []))
    as [e|st'] eqn:E; [vm_compute in E; discriminate|].
  destruct (badge_round_utilities _ _ _ _ _ _ _ _ _ _ E)
    as [row [Hrow [_ Hnan]]].
  exists st', row. split; [reflexivity|]. split; [exact Hrow|].
  split; apply Hnan; try lia; right; simpl; intros [H|[H|[]]];
    discriminate.
Defined.

Lemma badge_query_indices_from_pool_witness :
  exists rs' query_indices us,
    Badge.query Badge.euclidean_1d (list nat) Badge.scripted Badge.scripted
                [[1]; [1]] [[5]; [7]] [0; 1]%nat 2 2 [0; 0]%nat
    = inr (rs', (query_indices, us)) /\
    List.length query_indices = 2%nat /\
    Forall (fun idx => In idx [0; 1]%nat) query_indices.
Proof.
  destruct (Badge.query Badge.euclidean_1d (list nat) Badge.scripted
              Badge.scripted
              [[1]; [1]] [[5]; [7]] [0; 1]%nat 2 2 [0; 0]%nat)
    as [e|[rs' [query_indices us]]] eqn:E;
    [vm_compute in E; discriminate|].
  exists rs', query_indices, us. split; [reflexivity|].
  apply (badge_query_indices_from_pool _ _ _ _ _ _ _ _ _ _ _ _ _ E).
Defined.
